(** * Docs OS: the ingestion pipeline and the Drive sync watcher

    A shallow embedding of [scripts/generate-project-docs.mjs] (the
    classifier, the metadata generator and the page generator) and of
    [scripts/drive-sync.mjs] (the polling watcher), with the properties the
    specification states about them.

    Conventions of the embedding:
    - a JavaScript string is a [string] (a sequence of 8-bit characters);
      [toLowerCase] and [toUpperCase] follow ECMAScript on the ASCII range
      and leave every other character alone;
    - [path.extname] is Node's POSIX implementation, loop for loop;
    - the file system and the clock are an explicit [world]: a directory of
      the layout is absent or present with what the layout puts in it
      ([raw/] is a directory, [metadata.json] holds a metadata record), and
      the clock is the sequence of its successive readings;
    - an exception is an [Err] of [result]; [console.log] is left out. *)

From Stdlib Require Import Ascii DecimalString QArith.
From stdpp Require Import gmap strings list fin_maps.

Local Open Scope Z_scope.

(** ** JavaScript strings *)

Module JS.

Definition isUpper (c : ascii) : bool :=
  (65 <=? nat_of_ascii c)%nat && (nat_of_ascii c <=? 90)%nat.

Definition isLower (c : ascii) : bool :=
  (97 <=? nat_of_ascii c)%nat && (nat_of_ascii c <=? 122)%nat.

Definition isDigit (c : ascii) : bool :=
  (48 <=? nat_of_ascii c)%nat && (nat_of_ascii c <=? 57)%nat.

Definition lowerChar (c : ascii) : ascii :=
  if isUpper c then ascii_of_nat (nat_of_ascii c + 32) else c.

Definition upperChar (c : ascii) : ascii :=
  if isLower c then ascii_of_nat (nat_of_ascii c - 32) else c.

Fixpoint mapChars (f : ascii → ascii) (s : string) : string :=
  match s with
  | EmptyString => EmptyString
  | String c s' => String (f c) (mapChars f s')
  end.

(** [s.toLowerCase()] *)
Definition toLowerCase (s : string) : string := mapChars lowerChar s.

(** [s.toUpperCase()] *)
Definition toUpperCase (s : string) : string := mapChars upperChar s.

(** [s.startsWith(k)] *)
Fixpoint startsWith (k s : string) : bool :=
  match k, s with
  | EmptyString, _ => true
  | String _ _, EmptyString => false
  | String a k', String b s' => if decide (a = b) then startsWith k' s' else false
  end.

(** [s.includes(k)] *)
Fixpoint includes (s k : string) : bool :=
  startsWith k s ||
  match s with
  | EmptyString => false
  | String _ s' => includes s' k
  end.

(** [s.slice(n)] for [0 <= n] *)
Fixpoint sliceFrom (n : nat) (s : string) : string :=
  match n, s with
  | O, _ => s
  | S _, EmptyString => EmptyString
  | S n', String _ s' => sliceFrom n' s'
  end.

(** [s.slice(0, n)] for [0 <= n] *)
Fixpoint sliceTo (n : nat) (s : string) : string :=
  match n, s with
  | O, _ => EmptyString
  | S _, EmptyString => EmptyString
  | S n', String c s' => String c (sliceTo n' s')
  end.

(** [s.slice(a, b)]: negative indices count from the end, both are
    clamped to the string, and an empty range gives the empty string. *)
Definition slice (a b : Z) (s : string) : string :=
  let len := Z.of_nat (String.length s) in
  let from := if a <? 0 then Z.max (len + a) 0 else Z.min a len in
  let to := if b <? 0 then Z.max (len + b) 0 else Z.min b len in
  sliceTo (Z.to_nat (to - from)) (sliceFrom (Z.to_nat from) s).

(** [s.charAt(0)] *)
Definition charAt0 (s : string) : string := sliceTo 1 s.

Definition consHead (c : ascii) (parts : list string) : list string :=
  match parts with
  | [] => [String c EmptyString]
  | p :: ps => String c p :: ps
  end.

(** [s.split(sep)] for a non-empty separator: the pieces between the
    successive non-overlapping occurrences of [sep], scanning from the
    left. [skip] counts the characters of a matched separator that are
    still to be passed over. *)
Fixpoint splitFrom (sep : string) (skip : nat) (s : string) : list string :=
  match s with
  | EmptyString => [EmptyString]
  | String c s' =>
      match skip with
      | S k => splitFrom sep k s'
      | O =>
          if startsWith sep s
          then EmptyString :: splitFrom sep (String.length sep - 1) s'
          else consHead c (splitFrom sep 0 s')
      end
  end.

Definition split (sep s : string) : list string := splitFrom sep 0 s.

(** [parts.join(sep)] *)
Fixpoint join (sep : string) (parts : list string) : string :=
  match parts with
  | [] => EmptyString
  | [p] => p
  | p :: ps => p +:+ sep +:+ join sep ps
  end.

(** The portion of [s] after the first occurrence of [sep], if any. *)
Fixpoint after (sep s : string) : option string :=
  if startsWith sep s then Some (sliceFrom (String.length sep) s)
  else match s with
       | EmptyString => None
       | String _ s' => after sep s'
       end.

(** The portion of [s] before the first occurrence of [sep]; all of [s]
    when [sep] does not occur. *)
Fixpoint before (sep s : string) : string :=
  if startsWith sep s then EmptyString
  else match s with
       | EmptyString => EmptyString
       | String c s' => String c (before sep s')
       end.

End JS.

(** ** Node's [path.extname] (POSIX) *)

Module Path.

(** The variables of the scanning loop of [extname]. *)
Record scan := mkScan {
  startDot : Z;
  startPart : Z;
  end_ : Z;
  matchedSlash : bool;
  preDotState : Z;
  stopped : bool
}.

Definition scan0 : scan :=
  {| startDot := -1; startPart := 0; end_ := -1; matchedSlash := true;
     preDotState := 0; stopped := false |}.

(** The state of the scan once a character of the extension has been
    seen, and once the dot has. *)
Definition inExt (len : Z) : scan :=
  {| startDot := -1; startPart := 0; end_ := len; matchedSlash := false;
     preDotState := 0; stopped := false |}.

Definition inStem (dot len pre : Z) : scan :=
  {| startDot := dot; startPart := 0; end_ := len; matchedSlash := false;
     preDotState := pre; stopped := false |}.

(** One iteration of the loop, at index [i] holding the character [code]. *)
Definition scanStep (i : Z) (code : ascii) (st : scan) : scan :=
  if decide (code = "/"%char) then
    if negb (matchedSlash st)
    then {| startDot := startDot st; startPart := i + 1; end_ := end_ st;
            matchedSlash := matchedSlash st; preDotState := preDotState st;
            stopped := true |}
    else st
  else
    let st1 :=
      if end_ st =? -1
      then {| startDot := startDot st; startPart := startPart st; end_ := i + 1;
              matchedSlash := false; preDotState := preDotState st;
              stopped := stopped st |}
      else st in
    if decide (code = "."%char) then
      if startDot st1 =? -1
      then {| startDot := i; startPart := startPart st1; end_ := end_ st1;
              matchedSlash := matchedSlash st1; preDotState := preDotState st1;
              stopped := stopped st1 |}
      else if negb (preDotState st1 =? 1)
      then {| startDot := startDot st1; startPart := startPart st1; end_ := end_ st1;
              matchedSlash := matchedSlash st1; preDotState := 1;
              stopped := stopped st1 |}
      else st1
    else if negb (startDot st1 =? -1)
    then {| startDot := startDot st1; startPart := startPart st1; end_ := end_ st1;
            matchedSlash := matchedSlash st1; preDotState := -1;
            stopped := stopped st1 |}
    else st1.

(** [for (let i = n - 1; i >= 0; --i)], with [break] recorded in [stopped]. *)
Fixpoint scanLoop (path : string) (n : nat) (st : scan) : scan :=
  match n with
  | O => st
  | S i =>
      match String.get i path with
      | None => st
      | Some code =>
          let st' := scanStep (Z.of_nat i) code st in
          if stopped st' then st' else scanLoop path i st'
      end
  end.

Definition extname (path : string) : string :=
  let st := scanLoop path (String.length path) scan0 in
  if (startDot st =? -1) || (end_ st =? -1) || (preDotState st =? 0) ||
     ((preDotState st =? 1) && (startDot st =? end_ st - 1) &&
      (startDot st =? startPart st + 1))
  then EmptyString
  else JS.slice (startDot st) (end_ st) path.

End Path.

(** ** The generator, [scripts/generate-project-docs.mjs] *)

Module Generator.

Import JS.

(** *** Command line *)

(** The [args] object, as far as the script reads it; [None] is
    [undefined]. *)
Record args := mkArgs {
  arg_drive : option string;
  arg_slug : option string;
  arg_visibility : option string
}.

(** JavaScript truthiness of a string-or-undefined. *)
Definition truthy (v : option string) : bool :=
  match v with
  | None | Some EmptyString => false
  | Some _ => true
  end.

(** The constants the script computes from [args]. *)
Module Cli.

(** [args.drive.includes('folders/') ? args.drive.split('folders/')[1].split('?')[0] : args.drive];
    indexing past the end of an array gives [undefined], and calling
    [split] on that throws, which is [None] here. *)
Definition DRIVE_ID (drive : string) : option string :=
  if includes drive "folders/"
  then match split "folders/" drive !! 1%nat with
       | Some part => split "?" part !! 0%nat
       | None => None
       end
  else Some drive.

(** [/[^a-z0-9-]/] matches the characters that [slugChar] rejects. *)
Definition slugChar (c : ascii) : bool :=
  isLower c || isDigit c || bool_decide (c = "-"%char).

(** [args.slug.toLowerCase().replace(/[^a-z0-9-]/g, '-')] *)
Definition SLUG (slug : string) : string :=
  mapChars (fun c => if slugChar c then c else "-"%char) (toLowerCase slug).

(** [args.visibility || 'investor'] *)
Definition VISIBILITY (v : option string) : string :=
  if truthy v then default "investor" v else "investor".

End Cli.

(** *** Step 3: classification *)

Record classifiedFile := mkClassified {
  file : string;
  ext : string;
  type : string;
  category : string
}.

(** [array.includes(x)] on an array of strings *)
Definition isOneOf (x : string) (xs : list string) : bool := bool_decide (x ∈ xs).

Definition typeOfExt (ext : string) : string :=
  if isOneOf ext [".md"; ".mdx"; ".txt"] then "markdown"
  else if isOneOf ext [".docx"; ".doc"] then "document"
  else if isOneOf ext [".xlsx"; ".xls"; ".csv"] then "spreadsheet"
  else if isOneOf ext [".pptx"; ".ppt"] then "presentation"
  else if bool_decide (ext = ".pdf") then "pdf"
  else if isOneOf ext [".png"; ".jpg"; ".jpeg"; ".svg"; ".gif"] then "image"
  else "unknown".

Definition categoryOfName (nameLower : string) : string :=
  if includes nameLower "exec" || includes nameLower "summary" then "overview"
  else if includes nameLower "financial" || includes nameLower "revenue" then "financials"
  else if includes nameLower "team" || includes nameLower "org" then "team"
  else if includes nameLower "product" || includes nameLower "roadmap" then "product"
  else if includes nameLower "market" || includes nameLower "competitor" then "market"
  else if includes nameLower "legal" || includes nameLower "term" then "legal"
  else if includes nameLower "deck" || includes nameLower "pitch" then "pitch"
  else "appendix".

(** The body of the [files.map] callback. *)
Definition classifyFile (file : string) : classifiedFile :=
  let ext := toLowerCase (Path.extname file) in
  let type := typeOfExt ext in
  let nameLower := toLowerCase file in
  let category := categoryOfName nameLower in
  {| file := file; ext := ext; type := type; category := category |}.

(** *** The world the script runs in *)

(** What [metadata.json] holds. *)
Record metadata := mkMetadata {
  slug : string;
  name : string;
  visibility : string;
  status : string;
  tags : list string;
  createdAt : string;
  updatedAt : string;
  version : string;
  fileCount : nat;
  categories : list string;
  driveFolder : string
}.

(** What [drive-manifest.json] holds. *)
Record manifest := mkManifest {
  folderId : string;
  scannedAt : string;
  files : list string;
  instructions : string
}.

(** A project's data directory, [content/projects/<dir>]: the listing of
    [raw/] in [readdirSync] order with each file's [mtimeMs] ([None] when
    [raw/] does not exist), and the two JSON files. The reserved [mdx/]
    and [assets/] directories are never read and are left out. *)
Record projectDir := mkProjectDir {
  raw : option (list (string * Q));
  metadataJson : option metadata;
  driveManifestJson : option manifest
}.

(** A project's site directory,
    [apps/docs-platform/src/content/projects/<slug>]. *)
Record siteDir := mkSiteDir {
  indexMdx : option string;
  metaTs : option string;
  appendixMdx : option string;
  changelogMdx : option string
}.

(** [time k] is what [new Date().toISOString()] returns at the [k]-th
    reading of the clock; [reads] counts the readings so far. Directories
    are keyed by name. *)
Record world := mkWorld {
  time : nat → string;
  reads : nat;
  projects : gmap string projectDir;
  site : gmap string siteDir
}.

Inductive error :=
| ProcessExit (code : Z)
| ENOENT
| TypeError.

Inductive result (A : Type) :=
| Ok (a : A)
| Err (e : error).
Global Arguments Ok {A} a.
Global Arguments Err {A} e.

(** State passing with exceptions: the world is kept when a step throws. *)
Definition M (A : Type) : Type := world → result A * world.

Definition ret {A} (a : A) : M A := fun w => (Ok a, w).

Definition bind {A B} (m : M A) (k : A → M B) : M B :=
  fun w => match m w with
           | (Ok a, w') => k a w'
           | (Err e, w') => (Err e, w')
           end.

Definition throw {A} (e : error) : M A := fun w => (Err e, w).

Notation "x <~ m ;; k" := (bind m (fun x => k))
  (at level 100, m at next level, right associativity).
Notation "m ;;; k" := (bind m (fun _ => k))
  (at level 100, right associativity).

Definition emptyProjectDir : projectDir :=
  {| raw := None; metadataJson := None; driveManifestJson := None |}.

Definition emptySiteDir : siteDir :=
  {| indexMdx := None; metaTs := None; appendixMdx := None; changelogMdx := None |}.

Definition projectAt (w : world) (dir : string) : projectDir :=
  default emptyProjectDir (projects w !! dir).

Definition siteAt (w : world) (dir : string) : siteDir :=
  default emptySiteDir (site w !! dir).

(** The entries of a project's [raw/], none when it is missing, and
    their names. *)
Definition rawEntries (w : world) (dir : string) : list (string * Q) :=
  default [] (raw (projectAt w dir)).

Definition rawNames (w : world) (dir : string) : list string :=
  (rawEntries w dir).*1.

Definition setProject (dir : string) (d : projectDir) (w : world) : world :=
  {| time := time w; reads := reads w;
     projects := <[dir := d]> (projects w); site := site w |}.

Definition setSite (dir : string) (d : siteDir) (w : world) : world :=
  {| time := time w; reads := reads w;
     projects := projects w; site := <[dir := d]> (site w) |}.

(** The clock has been read once more. *)
Definition advance (w : world) : world :=
  {| time := time w; reads := S (reads w);
     projects := projects w; site := site w |}.

(** [new Date().toISOString()] *)
Definition now : M string :=
  fun w => (Ok (time w (reads w)), advance w).

(** [fs.mkdirSync(path.join(OUTPUT_BASE, 'raw'), { recursive: true })] *)
Definition mkdirRaw (dir : string) : M unit :=
  fun w =>
    let d := projectAt w dir in
    (Ok (), setProject dir
              {| raw := Some (default [] (raw d));
                 metadataJson := metadataJson d;
                 driveManifestJson := driveManifestJson d |} w).

(** [fs.mkdirSync(DOCS_CONTENT, { recursive: true })] *)
Definition mkdirSite (dir : string) : M unit :=
  fun w => (Ok (), setSite dir (siteAt w dir) w).

(** [fs.existsSync(rawDir)] *)
Definition existsRaw (dir : string) : M bool :=
  fun w => (Ok (match raw (projectAt w dir) with Some _ => true | None => false end), w).

(** [fs.readdirSync(rawDir)]: throws when the directory is missing. *)
Definition readdirRaw (dir : string) : M (list string) :=
  fun w => match raw (projectAt w dir) with
           | Some entries => (Ok (entries.*1), w)
           | None => (Err ENOENT, w)
           end.

Definition writeManifest (dir : string) (m : manifest) : M unit :=
  fun w =>
    let d := projectAt w dir in
    (Ok (), setProject dir
              {| raw := raw d; metadataJson := metadataJson d;
                 driveManifestJson := Some m |} w).

Definition writeMetadata (dir : string) (m : metadata) : M unit :=
  fun w =>
    let d := projectAt w dir in
    (Ok (), setProject dir
              {| raw := raw d; metadataJson := Some m;
                 driveManifestJson := driveManifestJson d |} w).

Definition writeIndex (dir text : string) : M unit :=
  fun w =>
    let d := siteAt w dir in
    (Ok (), setSite dir
              {| indexMdx := Some text; metaTs := metaTs d;
                 appendixMdx := appendixMdx d; changelogMdx := changelogMdx d |} w).

Definition writeMetaTs (dir text : string) : M unit :=
  fun w =>
    let d := siteAt w dir in
    (Ok (), setSite dir
              {| indexMdx := indexMdx d; metaTs := Some text;
                 appendixMdx := appendixMdx d; changelogMdx := changelogMdx d |} w).

Definition writeAppendix (dir text : string) : M unit :=
  fun w =>
    let d := siteAt w dir in
    (Ok (), setSite dir
              {| indexMdx := indexMdx d; metaTs := metaTs d;
                 appendixMdx := Some text; changelogMdx := changelogMdx d |} w).

Definition writeChangelog (dir text : string) : M unit :=
  fun w =>
    let d := siteAt w dir in
    (Ok (), setSite dir
              {| indexMdx := indexMdx d; metaTs := metaTs d;
                 appendixMdx := appendixMdx d; changelogMdx := Some text |} w).

(** *** Text helpers of the templates *)

Definition nl : string := String "010"%char "".
Definition dq : string := String "034"%char "".

(** A template literal, line by line. *)
Definition lines (ls : list string) : string := join nl ls.

(** [`${v}`] where [v] may be [undefined]. *)
Definition interp (v : option string) : string := default "undefined" v.

(** [`${n}`] for a non-negative integer. *)
Definition showNat (n : nat) : string := NilZero.string_of_uint (Nat.to_uint n).

(** [new Date().toISOString().split('T')[0]] applied to a clock reading. *)
Definition dateOf (iso : string) : string := interp (split "T" iso !! 0%nat).

(** [w.charAt(0).toUpperCase() + w.slice(1)] *)
Definition capitalize (w : string) : string :=
  toUpperCase (charAt0 w) +:+ sliceFrom 1 w.

(** Insertion into a JavaScript [Set], which keeps insertion order. *)
Definition Set_add (s : list string) (x : string) : list string :=
  if bool_decide (x ∈ s) then s else s ++ [x].

(** [[...new Set(xs)]] *)
Definition newSet (xs : list string) : list string := foldl Set_add [] xs.

Fixpoint noSlashDot (s : string) : bool :=
  match s with
  | "" => true
  | String c s' =>
      negb (bool_decide (c = "/"%char)) && negb (bool_decide (c = "."%char)) &&
      noSlashDot s'
  end.

(** Does [/\.[^/.]+$/] match [s] from its first character on? *)
Definition extMatchesAt (s : string) : bool :=
  match s with
  | "" => false
  | String c s' =>
      bool_decide (c = "."%char) && negb (bool_decide (s' = "")) && noSlashDot s'
  end.

(** [s.replace(/\.[^/.]+$/, '')]: the leftmost match is removed. *)
Fixpoint stripExt (s : string) : string :=
  if extMatchesAt s then ""
  else match s with
       | "" => ""
       | String c s' => String c (stripExt s')
       end.

(** [s.replace(/[^a-z0-9]+/g, '-')]: [inRun] tells that the previous
    character belonged to a run that has already been replaced. *)
Fixpoint hyphenateFrom (inRun : bool) (s : string) : string :=
  match s with
  | "" => ""
  | String c s' =>
      if isLower c || isDigit c then String c (hyphenateFrom false s')
      else if inRun then hyphenateFrom true s'
      else String "-"%char (hyphenateFrom true s')
  end.

Definition hyphenate (s : string) : string := hyphenateFrom false s.

(** *** Steps 1 to 6 *)

Section Pipeline.

(** The script's top-level constants. *)
Variables DRIVE_ID SLUG VISIBILITY : string.

(** Step 1. [OUTPUT_BASE] and [DOCS_CONTENT] are the directories named
    [SLUG] of the two trees. *)
Definition setupDirectories : M unit :=
  mkdirRaw SLUG ;;; mkdirSite SLUG.

(** Step 2 *)
Definition scanDriveFolder : M manifest :=
  scanned <~ now ;;
  let manifest :=
    {| folderId := DRIVE_ID;
       scannedAt := scanned;
       files := [];
       instructions := "Place exported Google Drive files in the /raw directory. Supported: .docx, .pdf, .xlsx, .csv, .pptx, .md, .txt" |} in
  writeManifest SLUG manifest ;;;
  ret manifest.

(** Step 3 *)
Definition classifyFiles : M (list classifiedFile) :=
  present <~ existsRaw SLUG ;;
  if negb present then ret []
  else
    files <~ readdirRaw SLUG ;;
    ret (map classifyFile files).

(** Step 4 *)
Definition generateMetadata (classified : list classifiedFile) : M metadata :=
  created <~ now ;;
  updated <~ now ;;
  let metadata :=
    {| slug := SLUG;
       name := join " " (map capitalize (split "-" SLUG));
       visibility := VISIBILITY;
       status := "active";
       tags := [];
       createdAt := created;
       updatedAt := updated;
       version := "1.0";
       fileCount := length classified;
       categories := newSet (map category classified);
       driveFolder := DRIVE_ID |} in
  writeMetadata SLUG metadata ;;;
  ret metadata.

(** Step 5: the rows of the two tables and the entries of [_meta.ts]. *)
Definition indexRow (f : classifiedFile) : string :=
  "| " +:+ file f +:+ " | " +:+ category f +:+ " | " +:+ type f +:+ " |".

Definition indexRows (classified : list classifiedFile) : string :=
  join nl (map indexRow classified).

Definition appendixRow (f : classifiedFile) : string :=
  "| " +:+ file f +:+ " | " +:+ type f +:+ " | " +:+ category f +:+
  " | [Download](/projects/" +:+ SLUG +:+ "/assets/" +:+ file f +:+ ") |".

Definition appendixRows (classified : list classifiedFile) : string :=
  join nl (map appendixRow classified).

Definition isPage (f : classifiedFile) : bool :=
  bool_decide (type f = "markdown") || bool_decide (type f = "document").

Definition navSlug (f : classifiedFile) : string :=
  hyphenate (toLowerCase (stripExt (file f))).

Definition navName (f : classifiedFile) : string := stripExt (file f).

Definition navEntry (f : classifiedFile) : string :=
  "  '" +:+ navSlug f +:+ "': '" +:+ navName f +:+ "',".

Definition navEntries (classified : list classifiedFile) : string :=
  join nl (map navEntry (filter (fun f => isPage f = true) classified)).

Definition indexMdxText (metadata : metadata) (classified : list classifiedFile)
    (today : string) : string :=
  lines [
    "---";
    "title: " +:+ dq +:+ name metadata +:+ " — Data Room" +:+ dq;
    "---";
    "";
    "# " +:+ name metadata;
    "";
    "import { MetricCards } from '../../../components/MetricCards'";
    "";
    "<MetricCards metrics={[";
    "  { label: " +:+ dq +:+ "Status" +:+ dq +:+ ", value: " +:+ dq +:+ status metadata +:+ dq +:+ " },";
    "  { label: " +:+ dq +:+ "Visibility" +:+ dq +:+ ", value: " +:+ dq +:+ visibility metadata +:+ dq +:+ " },";
    "  { label: " +:+ dq +:+ "Documents" +:+ dq +:+ ", value: " +:+ dq +:+ showNat (fileCount metadata) +:+ dq +:+ " },";
    "  { label: " +:+ dq +:+ "Version" +:+ dq +:+ ", value: " +:+ dq +:+ "v" +:+ version metadata +:+ dq +:+ " }";
    "]} />";
    "";
    "---";
    "";
    "## Documents";
    "";
    "| Document | Category | Type |";
    "|----------|----------|------|";
    indexRows classified;
    "";
    "---";
    "";
    "> This data room was auto-generated by Docs OS on " +:+ today +:+ ".";
    "> Source: Google Drive folder `" +:+ DRIVE_ID +:+ "`";
    "" ].

Definition metaTsText (classified : list classifiedFile) : string :=
  lines [
    "export default {";
    "  index: 'Overview',";
    navEntries classified;
    "  appendix: 'Downloads & Appendix',";
    "}";
    "" ].

Definition appendixMdxText (metadata : metadata) (classified : list classifiedFile)
    (today : string) : string :=
  lines [
    "---";
    "title: Downloads & Appendix";
    "---";
    "";
    "# Downloads & Appendix";
    "";
    "All source files from the " +:+ name metadata +:+ " data room.";
    "";
    "| File | Type | Category | Download |";
    "|------|------|----------|----------|";
    appendixRows classified;
    "";
    "---";
    "";
    "*Last synced: " +:+ today +:+ "*";
    "" ].

Definition generateMDXPages (metadata : metadata) (classified : list classifiedFile)
    : M unit :=
  t1 <~ now ;;
  writeIndex SLUG (indexMdxText metadata classified (dateOf t1)) ;;;
  writeMetaTs SLUG (metaTsText classified) ;;;
  t2 <~ now ;;
  writeAppendix SLUG (appendixMdxText metadata classified (dateOf t2)).

(** Step 6 *)
Definition changelogText (metadata : metadata) (today : string) : string :=
  lines [
    "---";
    "title: Changelog";
    "---";
    "";
    "# Changelog — " +:+ name metadata;
    "";
    "## v" +:+ version metadata +:+ " — " +:+ today;
    "";
    "- Initial data room generation";
    "- " +:+ showNat (fileCount metadata) +:+ " documents imported";
    "- Categories: " +:+ join ", " (categories metadata);
    "" ].

Definition generateChangelog (metadata : metadata) : M unit :=
  t <~ now ;;
  writeChangelog SLUG (changelogText metadata (dateOf t)).

(** What a run computes at top level. *)
Record run := mkRun {
  run_manifest : manifest;
  run_classified : list classifiedFile;
  run_metadata : metadata
}.

(** "Execute pipeline" *)
Definition pipeline : M run :=
  setupDirectories ;;;
  manifest <~ scanDriveFolder ;;
  classified <~ classifyFiles ;;
  metadata <~ generateMetadata classified ;;
  generateMDXPages metadata classified ;;;
  generateChangelog metadata ;;;
  ret {| run_manifest := manifest; run_classified := classified;
         run_metadata := metadata |}.

End Pipeline.

(** The whole script: the usage check, the constants, the pipeline. *)
Definition main (a : args) : M run :=
  if negb (truthy (arg_drive a)) || negb (truthy (arg_slug a))
  then throw (ProcessExit 1)
  else
    match Cli.DRIVE_ID (default "" (arg_drive a)) with
    | None => throw TypeError
    | Some driveId =>
        pipeline driveId (Cli.SLUG (default "" (arg_slug a)))
                 (Cli.VISIBILITY (arg_visibility a))
    end.

(** *** What a run leaves behind *)

(** The metadata record a run builds when the clock has been read [k]
    times before step 4. *)
Definition metadataOf (DRIVE_ID SLUG VISIBILITY : string)
    (classified : list classifiedFile) (clock : nat → string) (k : nat) : metadata :=
  {| slug := SLUG;
     name := join " " (map capitalize (split "-" SLUG));
     visibility := VISIBILITY;
     status := "active";
     tags := [];
     createdAt := clock k;
     updatedAt := clock (S k);
     version := "1.0";
     fileCount := length classified;
     categories := newSet (map category classified);
     driveFolder := DRIVE_ID |}.

(** [post SLUG w w' p s n]: from [w] to [w'] the project and site
    directories named [SLUG] have become [p] and [s], the other project
    directories are as they were, and the clock has been read [n] times. *)
Definition post (SLUG : string) (w w' : world) (p : projectDir) (s : siteDir)
    (n : nat) : Prop :=
  projectAt w' SLUG = p ∧ siteAt w' SLUG = s
  ∧ (∀ dir, dir ≠ SLUG → projectAt w' dir = projectAt w dir)
  ∧ time w' = time w ∧ reads w' = n.

End Generator.

(** ** The watcher, [scripts/drive-sync.mjs] *)

Module Watcher.

Import JS Generator.

(** A JavaScript number that holds a time in milliseconds. *)
Inductive jsnum :=
| NaN
| Num (q : Q).

(** [a > b]: false as soon as one side is [NaN]. *)
Definition gt (a b : jsnum) : bool :=
  match a, b with
  | Num x, Num y => negb (Qle_bool x y)
  | _, _ => false
  end.

(** What one cycle does with a project. *)
Inductive event :=
| Invoke (p : metadata)
| NoChanges (p : metadata).

Section Watch.

(** [new Date(s).getTime()] *)
Variable Date_getTime : string → jsnum.

(** [{ slug: dir, ...meta }]: the spread comes last, so the [slug] that
    [metadata.json] records replaces [dir]. *)
Definition withSlug (dir : string) (meta : metadata) : metadata :=
  {| slug := slug meta; name := name meta; visibility := visibility meta;
     status := status meta; tags := tags meta; createdAt := createdAt meta;
     updatedAt := updatedAt meta; version := version meta;
     fileCount := fileCount meta; categories := categories meta;
     driveFolder := driveFolder meta |}.

(** [readdirSync(PROJECTS_DIR)] (the directories, in the order of
    [map_to_list]; none when [PROJECTS_DIR] is missing), the directories
    without [metadata.json] filtered out,
    each remaining one mapped to its project, and the projects without a
    [driveFolder] filtered out. *)
Definition getProjectsWithDrive (w : world) : list metadata :=
  filter (fun p => truthy (Some (driveFolder p)) = true)
    (omap (fun '(dir, d) => withSlug dir <$> metadataJson d)
          (map_to_list (projects w))).

(** The [for] loop of [checkForChanges]; [fs.statSync] of a listed file
    gives the [mtimeMs] the listing pairs it with. *)
Fixpoint anyNewer (lastSync : jsnum) (entries : list (string * Q)) : bool :=
  match entries with
  | [] => false
  | (_, mtimeMs) :: rest =>
      if gt (Num mtimeMs) lastSync then true else anyNewer lastSync rest
  end.

(** What the cycle does with a project whose raw directory is as in
    [w]. *)
Definition eventOf (w : world) (p : metadata) : event :=
  if anyNewer (Date_getTime (updatedAt p)) (rawEntries w (slug p))
  then Invoke p else NoChanges p.

(** [fs.readdirSync(rawDir)] with the [fs.statSync(...).mtimeMs] of each
    listed file: throws when the directory is missing. *)
Definition statAll (dir : string) : M (list (string * Q)) :=
  fun w => match raw (projectAt w dir) with
           | Some entries => (Ok entries, w)
           | None => (Err ENOENT, w)
           end.

Definition checkForChanges (project : metadata) : M bool :=
  let lastSync := Date_getTime (updatedAt project) in
  present <~ existsRaw (slug project) ;;
  if negb present then ret false
  else
    entries <~ statAll (slug project) ;;
    ret (anyNewer lastSync entries).

(** [syncProject]: the generator is run as a child process on the
    project's recorded arguments, which are taken to hold no character
    that the shell interprets inside double quotes; whatever it throws is
    caught. The commit that follows does not touch the modelled
    directories. *)
Definition syncProject (project : metadata) : M unit :=
  fun w =>
    let a := {| arg_drive := Some (driveFolder project);
                arg_slug := Some (slug project);
                arg_visibility := Some (visibility project) |} in
    (Ok (), (main a w).2).

(** The [for] loop of [runSyncCycle]. *)
Fixpoint syncAll (projects : list metadata) : M (list event) :=
  match projects with
  | [] => ret []
  | project :: rest =>
      changed <~ checkForChanges project ;;
      if (changed : bool) then
        syncProject project ;;;
        evs <~ syncAll rest ;;
        ret (Invoke project :: evs)
      else
        evs <~ syncAll rest ;;
        ret (NoChanges project :: evs)
  end.

Definition runSyncCycle : M (list event) :=
  fun w => syncAll (getProjectsWithDrive w) w.

End Watch.

End Watcher.

(** ** The specification's reading of the rules

    The definitions of this module follow the words of the specification;
    the theorems below compare them with the code. *)

Module Spec.

Import JS.

(** §4.1, the keyword sets in their priority order. *)
Definition categoryRules : list (list string * string) :=
  [ (["exec"; "summary"], "overview");
    (["financial"; "revenue"], "financials");
    (["team"; "org"], "team");
    (["product"; "roadmap"], "product");
    (["market"; "competitor"], "market");
    (["legal"; "term"], "legal");
    (["deck"; "pitch"], "pitch") ].

(** "First matching rule wins; default is appendix." *)
Fixpoint firstMatch (rules : list (list string * string)) (nameLower : string) : string :=
  match rules with
  | [] => "appendix"
  | (keywords, cat) :: rest =>
      if existsb (includes nameLower) keywords then cat
      else firstMatch rest nameLower
  end.

(** §4.1, the extension-to-type table. *)
Definition typeTable : list (list string * string) :=
  [ ([".md"; ".mdx"; ".txt"], "markdown");
    ([".docx"; ".doc"], "document");
    ([".xlsx"; ".xls"; ".csv"], "spreadsheet");
    ([".pptx"; ".ppt"], "presentation");
    ([".pdf"], "pdf");
    ([".png"; ".jpg"; ".jpeg"; ".svg"; ".gif"], "image") ].

(** The type the table gives an extension: that of the group that lists
    it, [unknown] when no group does. *)
Fixpoint lookupType (table : list (list string * string)) (ext : string) : string :=
  match table with
  | [] => "unknown"
  | (exts, ty) :: rest =>
      if bool_decide (ext ∈ exts) then ty else lookupType rest ext
  end.

(** A name in which no slash occurs, as every directory entry is. *)
Fixpoint noSlash (s : string) : bool :=
  match s with
  | "" => true
  | String c s' => negb (bool_decide (c = "/"%char)) && noSlash s'
  end.

(** The distinct elements of a sequence, in the order in which each is
    first seen. *)
Fixpoint firstSeen (xs : list string) : list string :=
  match xs with
  | [] => []
  | x :: rest => x :: filter (fun y => y ≠ x) (firstSeen rest)
  end.

(** The drive id as the claim words it: the portion after the first
    [folders/], truncated at the first question mark. *)
Definition driveIdAfterFirst (drive : string) : option string :=
  if includes drive "folders/"
  then before "?" <$> after "folders/" drive
  else Some drive.

(** The drive id as the code computes it: the portion between the first
    [folders/] and the next one (or the end), truncated at the first
    question mark. *)
Definition driveIdBetween (drive : string) : option string :=
  if includes drive "folders/"
  then (fun rest => before "?" (before "folders/" rest)) <$> after "folders/" drive
  else Some drive.

(** §4.3, the entries that the files contribute to the navigation
    manifest: one per file whose type is markdown or document, in file
    order, from the slug of the name to the name without its extension. *)
Fixpoint navPairs (classified : list Generator.classifiedFile) : list (string * string) :=
  match classified with
  | [] => []
  | f :: rest =>
      if bool_decide (Generator.type f = "markdown" ∨ Generator.type f = "document")
      then (Generator.hyphenate (toLowerCase (Generator.stripExt (Generator.file f))),
            Generator.stripExt (Generator.file f)) :: navPairs rest
      else navPairs rest
  end.

(** The manifest as an ordered mapping, with its two fixed entries. *)
Definition navManifest (classified : list Generator.classifiedFile)
    : list (string * string) :=
  ("index", "Overview") :: navPairs classified
    ++ [("appendix", "Downloads & Appendix")].

(** The line [_meta.ts] holds for a file's entry. *)
Definition navLine (kv : string * string) : string :=
  "  '" +:+ kv.1 +:+ "': '" +:+ kv.2 +:+ "',".

(** A character of the class [a-z0-9]. *)
Definition isAlnum (c : ascii) : bool := isLower c || isDigit c.

Fixpoint allChars (p : ascii → bool) (s : string) : bool :=
  match s with
  | "" => true
  | String c s' => p c && allChars p s'
  end.

Fixpoint filterChars (p : ascii → bool) (s : string) : string :=
  match s with
  | "" => ""
  | String c s' => if p c then String c (filterChars p s') else filterChars p s'
  end.

(** No hyphen is followed by a hyphen. *)
Fixpoint noDoubleHyphen (s : string) : bool :=
  match s with
  | "" => true
  | String a s' =>
      match s' with
      | String b _ => negb (bool_decide (a = "-"%char) && bool_decide (b = "-"%char))
      | "" => true
      end && noDoubleHyphen s'
  end.

(** §4.4, the condition of a sync: some file of the project's raw
    directory has a modification time strictly later than the project's
    recorded [updatedAt]. *)
Definition newerFile (Date_getTime : string → Watcher.jsnum) (w : Generator.world)
    (p : Generator.metadata) : Prop :=
  ∃ entries file mtimeMs lastSync,
    Generator.raw (Generator.projectAt w (Generator.slug p)) = Some entries
    ∧ (file, mtimeMs) ∈ entries
    ∧ Date_getTime (Generator.updatedAt p) = Watcher.Num lastSync
    ∧ (lastSync < mtimeMs)%Q.

(** An object literal evaluated: a later entry with the same key replaces
    the value of the earlier one. *)
Definition objectOf (entries : list (string * string)) : gmap string string :=
  foldl (fun m kv => <[kv.1 := kv.2]> m) ∅ entries.

End Spec.

(** ** Concrete worlds and listings used in the examples *)

Module Fixtures.

Import Generator.

(** A clock that is read at 23:59:59.998 on the last day of 2024 and
    advances by one millisecond between readings, for three readings. *)
Definition midnightClock (k : nat) : string :=
  match k with
  | 0%nat => "2024-12-31T23:59:59.998Z"
  | 1%nat => "2024-12-31T23:59:59.999Z"
  | _ => "2025-01-01T00:00:00.000Z"
  end.

(** A clock that always reads the same instant. *)
Definition frozenClock (k : nat) : string := "2026-03-01T09:30:00.000Z".

(** Nothing on disk yet. *)
Definition emptyWorld : world :=
  {| time := midnightClock; reads := 0; projects := ∅; site := ∅ |}.

(** The three files of the end-to-end scenario of §8. *)
Definition scenarioFiles : list string :=
  ["Executive-Summary.pdf"; "Financial-Model.xlsx"; "random-notes.txt"].

(** A project directory [acme] whose [raw/] holds the scenario's files,
    all modified at [mtimeMs], under the given clock. *)
Definition scenarioWorld (clock : nat → string) (mtimeMs : Q) : world :=
  {| time := clock; reads := 0;
     projects :=
       {[ "acme" := {| raw := Some ((fun f => (f, mtimeMs)) <$> scenarioFiles);
                       metadataJson := None;
                       driveManifestJson := None |} ]};
     site := ∅ |}.

(** A date parser that knows two instants and gives [NaN] for any other
    string. *)
Definition parseKnownDates (s : string) : Watcher.jsnum :=
  if bool_decide (s = "1970-01-01T00:00:01.000Z") then Watcher.Num 1000
  else if bool_decide (s = "1970-01-01T00:00:02.000Z") then Watcher.Num 2000
  else Watcher.NaN.

Definition projectRecord (name updated : string) : metadata :=
  {| slug := name; name := "Project"; visibility := "investor";
     status := "active"; tags := []; createdAt := updated;
     updatedAt := updated; version := "1.0"; fileCount := 1;
     categories := ["appendix"]; driveFolder := "ABC123" |}.

(** Three projects with a drive folder, all last updated at 1000 ms:
    [acme] holds a file modified at 1000.5 ms, [beta] a file modified at
    exactly 1000 ms, and [gamma] has no raw directory. *)
Definition watchedWorld : world :=
  {| time := frozenClock; reads := 0;
     projects :=
       {[ "acme" := {| raw := Some [("notes.md", 2001 # 2)];
                       metadataJson :=
                         Some (projectRecord "acme" "1970-01-01T00:00:01.000Z");
                       driveManifestJson := None |};
          "beta" := {| raw := Some [("deck.pptx", 1000 # 1)];
                       metadataJson :=
                         Some (projectRecord "beta" "1970-01-01T00:00:01.000Z");
                       driveManifestJson := None |};
          "gamma" := {| raw := None;
                        metadataJson :=
                          Some (projectRecord "gamma" "1970-01-01T00:00:01.000Z");
                        driveManifestJson := None |} ]};
     site := ∅ |}.

Definition acmeArgs : args :=
  {| arg_drive := Some "ABC123"; arg_slug := Some "acme";
     arg_visibility := None |}.

Definition acmeUrlArgs : args :=
  {| arg_drive := Some "https://drive.google.com/drive/folders/XYZ789?usp=sharing";
     arg_slug := Some "acme"; arg_visibility := None |}.

End Fixtures.

(** ** The command lines of the two scripts *)

Module Argv.

Import JS Generator.

(** [arg.replace(pat, '')] for a string pattern: the first occurrence of
    [pat] is removed. *)
Fixpoint removeFirst (pat s : string) : string :=
  if startsWith pat s then sliceFrom (String.length pat) s
  else match s with
       | "" => ""
       | String c s' => String c (removeFirst pat s')
       end.


(** The callback of [process.argv.slice(2).map]:
    [const [key, ...val] = arg.replace('--', '').split('=')] and
    [[key, val.join('=')]]. *)
Definition parseArg (arg : string) : string * string :=
  match split "=" (removeFirst "--" arg) with
  | key :: val => (key, join "=" val)
  | [] => ("undefined", "")
  end.




(** [process.argv.find(a => a.startsWith('--interval='))] *)
Definition findInterval (argv : list string) : option string :=
  head (filter (fun a => startsWith "--interval=" a = true) argv).

(** The text the watcher hands to [parseInt]:
    [process.argv.find(...)?.split('=')[1] || '300']. *)
Definition intervalText (argv : list string) : string :=
  match findInterval argv with
  | None => "300"
  | Some a =>
      match split "=" a !! 1%nat with
      | Some "" | None => "300"
      | Some t => t
      end
  end.

End Argv.

(** ** Character maps and predicates used to state properties *)

Module Chars.

Import JS Generator.



(** The eight categories. *)
Definition allCategories : list string :=
  ["overview"; "financials"; "team"; "product"; "market"; "legal"; "pitch";
   "appendix"].

End Chars.

(** ** More concrete worlds *)

Module MoreFixtures.

Import Generator.

(** A clock that always reads two seconds after the epoch, an instant
    that [Fixtures.parseKnownDates] knows. *)
Definition epochClock (k : nat) : string := "1970-01-01T00:00:02.000Z".

(** The scenario's files, all modified one second after the epoch, under
    that clock. *)
Definition settledWorld : world := Fixtures.scenarioWorld epochClock 1000.

(** The same files, all modified three seconds after the epoch: later
    than any reading of the clock. *)
Definition skewedWorld : world := Fixtures.scenarioWorld epochClock 3000.

(** Two projects with a drive folder, neither with a raw file newer than
    its [updatedAt]. *)
Definition idleWorld : world :=
  {| time := epochClock; reads := 0;
     projects :=
       {[ "beta" := {| raw := Some [("deck.pptx", 1000 # 1)];
                       metadataJson :=
                         Some (Fixtures.projectRecord "beta" "1970-01-01T00:00:01.000Z");
                       driveManifestJson := None |};
          "gamma" := {| raw := None;
                        metadataJson :=
                          Some (Fixtures.projectRecord "gamma" "1970-01-01T00:00:01.000Z");
                        driveManifestJson := None |} ]};
     site := ∅ |}.

(** The scenario's files with other modification times, in a project that
    has been generated before: pages, a record with hand-written tags and
    a manifest are on disk. *)
Definition staleWorld : world :=
  {| time := epochClock; reads := 0;
     projects :=
       {[ "acme" := {| raw := Some ((fun f => (f, 5 # 1)) <$> Fixtures.scenarioFiles);
                       metadataJson :=
                         Some {| slug := "acme"; name := "Old Name";
                                 visibility := "internal"; status := "archived";
                                 tags := ["seed"]; createdAt := "2020-01-01T00:00:00.000Z";
                                 updatedAt := "2020-01-01T00:00:00.000Z";
                                 version := "3.2"; fileCount := 9;
                                 categories := ["legal"]; driveFolder := "OLD" |};
                       driveManifestJson := None |} ]};
     site :=
       {[ "acme" := {| indexMdx := Some "old index"; metaTs := Some "old nav";
                       appendixMdx := Some "old appendix";
                       changelogMdx := Some "## v0.9 - a hand-written entry" |} ]} |}.

End MoreFixtures.

(** ** Frames *)

Module Frame.

Import Generator.

(** A step that leaves the project and site directories named [dir] as
    they are. *)
Definition keeps (dir : string) {A : Type} (m : M A) : Prop :=
  ∀ w, projects (m w).2 !! dir = projects w !! dir
       ∧ site (m w).2 !! dir = site w !! dir.

End Frame.

(** ** Lemmas on strings *)

Section StringLemmas.

Import JS.

Lemma startsWith_mapChars f k s :
  startsWith k s = true → startsWith (mapChars f k) (mapChars f s) = true.
Proof.
  revert s. induction k as [|a k IH]; intros [|b s]; simpl; try done.
  destruct (decide (a = b)) as [->|]; [|done].
  intros H. rewrite decide_True by done. auto.
Qed.

Lemma includes_mapChars f s k :
  includes s k = true → includes (mapChars f s) (mapChars f k) = true.
Proof.
  induction s as [|b s IH]; simpl.
  - rewrite orb_false_r. intros H. rewrite orb_false_r.
    by apply (startsWith_mapChars f k "").
  - intros [H|H]%orb_true_iff; apply orb_true_iff.
    + left. by apply (startsWith_mapChars f k (String b s)).
    + right. auto.
Qed.

(** A keyword written in lower case that occurs in a name still occurs in
    the lowercased name. *)
Lemma includes_toLowerCase s k :
  toLowerCase k = k → includes s k = true → includes (toLowerCase s) k = true.
Proof.
  intros Hk H. rewrite <- Hk. by apply includes_mapChars.
Qed.

End StringLemmas.

(** ** [path.extname] on a name with a plain extension *)

Section ExtnameLemmas.

Import JS Generator Path.

Lemma get_noSlash s i c : Spec.noSlash s = true → String.get i s = Some c → c ≠ "/"%char.
Proof.
  revert i. induction s as [|a s IH]; intros i; simpl; [done|].
  intros [Ha Hs]%andb_true_iff. destruct i as [|i]; simpl.
  - intros [= <-]. by apply negb_true_iff, bool_decide_eq_false in Ha.
  - by apply IH.
Qed.

Lemma get_noSlashDot s i c :
  noSlashDot s = true → String.get i s = Some c → c ≠ "/"%char ∧ c ≠ "."%char.
Proof.
  revert i. induction s as [|a s IH]; intros i; simpl; [done|].
  intros [[Ha Hb]%andb_true_iff Hs]%andb_true_iff. destruct i as [|i]; simpl.
  - intros [= <-]. split.
    + by apply negb_true_iff, bool_decide_eq_false in Ha.
    + by apply negb_true_iff, bool_decide_eq_false in Hb.
  - by apply IH.
Qed.

Lemma get_lt s i : (i < String.length s)%nat → ∃ c, String.get i s = Some c.
Proof.
  revert i. induction s as [|a s IH]; intros i; simpl; [lia|].
  destruct i as [|i]; [eauto|]. intros H. apply IH. lia.
Qed.

Lemma get_app_l s t i :
  (i < String.length s)%nat → String.get i (s +:+ t) = String.get i s.
Proof.
  revert i. induction s as [|a s IH]; intros i; simpl; [lia|].
  destruct i as [|i]; [done|]. intros H. apply IH. lia.
Qed.

Lemma get_app_r s t i :
  String.get (String.length s + i) (s +:+ t) = String.get i t.
Proof. induction s as [|a s IH]; simpl; done. Qed.

Lemma string_length_app s t :
  String.length (s +:+ t) = (String.length s + String.length t)%nat.
Proof. induction s as [|a s IH]; simpl; [done|]. by rewrite IH. Qed.

Lemma sliceFrom_app s t : sliceFrom (String.length s) (s +:+ t) = t.
Proof. induction s as [|a s IH]; simpl; [by destruct t|done]. Qed.

Lemma sliceTo_all s : sliceTo (String.length s) s = s.
Proof. induction s as [|a s IH]; simpl; [done|]. by rewrite IH. Qed.

Lemma scanStep_first i c :
  c ≠ "/"%char → c ≠ "."%char → scanStep i c scan0 = inExt (i + 1).
Proof.
  intros H1 H2. unfold scanStep, scan0, inExt. simpl.
  rewrite !decide_False by done. reflexivity.
Qed.

Lemma scanStep_inExt i c len :
  len ≠ -1 → c ≠ "/"%char → c ≠ "."%char → scanStep i c (inExt len) = inExt len.
Proof.
  intros Hl H1 H2. unfold scanStep, inExt. simpl.
  rewrite !decide_False by done.
  destruct (len =? -1) eqn:E; [apply Z.eqb_eq in E; lia|]. reflexivity.
Qed.

Lemma scanStep_dot i len :
  len ≠ -1 → scanStep i "."%char (inExt len) = inStem i len 0.
Proof.
  intros Hl. unfold scanStep, inExt, inStem. simpl.
  destruct (len =? -1) eqn:E; [apply Z.eqb_eq in E; lia|]. reflexivity.
Qed.

Lemma scanStep_inStem i c dot len pre :
  len ≠ -1 → dot ≠ -1 → c ≠ "/"%char →
  ∃ pre', pre' ≠ 0 ∧ scanStep i c (inStem dot len pre) = inStem dot len pre'.
Proof.
  intros Hl Hd H1. unfold scanStep, inStem. simpl.
  rewrite decide_False by done.
  destruct (len =? -1) eqn:E; [apply Z.eqb_eq in E; lia|]. simpl.
  destruct (dot =? -1) eqn:E'; [apply Z.eqb_eq in E'; lia|]. simpl.
  destruct (decide (c = "."%char)).
  - destruct (pre =? 1) eqn:E1; simpl.
    + apply Z.eqb_eq in E1 as ->. by exists 1.
    + by exists 1.
  - by exists (-1).
Qed.

Section Scan.
Variables (stem e : string).
Hypothesis stem_noSlash : Spec.noSlash stem = true.
Hypothesis e_plain : noSlashDot e = true.

Let path := stem +:+ "." +:+ e.
Let L := String.length stem.
Let len := String.length path.

Lemma len_eq : len = (L + 1 + String.length e)%nat.
Proof. unfold len, path, L. rewrite !string_length_app. simpl. lia. Qed.

Lemma get_ext i c :
  (L < i)%nat → String.get i path = Some c → c ≠ "/"%char ∧ c ≠ "."%char.
Proof.
  intros Hi. unfold path.
  replace i with (String.length stem + S (i - L - 1))%nat by (unfold L in *; lia).
  rewrite get_app_r. simpl. by apply get_noSlashDot.
Qed.

Lemma get_dot : String.get L path = Some "."%char.
Proof.
  unfold path, L. replace (String.length stem) with (String.length stem + 0)%nat by lia.
  by rewrite get_app_r.
Qed.

Lemma get_stem i c : (i < L)%nat → String.get i path = Some c → c ≠ "/"%char.
Proof.
  intros Hi. unfold path. rewrite get_app_l by done. by apply get_noSlash.
Qed.

Lemma scanLoop_ext n :
  (L < n)%nat → (n ≤ len)%nat →
  scanLoop path n (inExt (Z.of_nat len)) = scanLoop path (S L) (inExt (Z.of_nat len)).
Proof.
  induction n as [|n IH]; [lia|]. intros Hn Hle.
  destruct (decide (n = L)) as [->|Hne]; [done|].
  simpl. destruct (get_lt path n) as [c Hc]; [unfold len in *; lia|].
  rewrite Hc. destruct (get_ext n c) as [H1 H2]; [lia|done|].
  rewrite scanStep_inExt by (done || lia). simpl. apply IH; lia.
Qed.

Lemma scanLoop_stem n pre :
  (n ≤ L)%nat →
  ∃ pre' : Z, ((0 < n)%nat → pre' ≠ 0) ∧
    scanLoop path n (inStem (Z.of_nat L) (Z.of_nat len) pre)
      = inStem (Z.of_nat L) (Z.of_nat len) pre'.
Proof.
  revert pre. induction n as [|n IH]; intros pre Hn.
  - exists pre. split; [lia|done].
  - simpl. destruct (get_lt path n) as [c Hc].
    { pose proof len_eq as Hlen. unfold len in Hlen. lia. }
    rewrite Hc.
    destruct (scanStep_inStem (Z.of_nat n) c (Z.of_nat L) (Z.of_nat len) pre)
      as (pre1 & Hpre1 & ->); [lia|lia|by apply (get_stem n); [lia|]|].
    simpl. destruct n as [|n'].
    + exists pre1. split; done.
    + destruct (IH pre1) as (pre2 & Hpre2 & ->); [lia|].
      exists pre2. split; [intros _; apply Hpre2; lia|done].
Qed.

Lemma extname_stem_ext_aux :
  stem ≠ "" → e ≠ "" → extname path = "." +:+ e.
Proof.
  intros Hs He.
  assert (0 < L)%nat as HL by (unfold L; destruct stem; simpl; [done|lia]).
  assert (0 < String.length e)%nat as HE by (destruct e; simpl; [done|lia]).
  pose proof len_eq as Hlen.
  unfold extname. fold len.
  assert (scanLoop path len scan0 = scanLoop path (S L) (inExt (Z.of_nat len))) as ->.
  { destruct len as [|n] eqn:El; [lia|]. simpl.
    destruct (get_lt path n) as [c Hc]; [unfold len in El; lia|].
    rewrite Hc. destruct (get_ext n c) as [H1 H2]; [lia|done|].
    rewrite scanStep_first by done. simpl.
    replace (Z.of_nat n + 1) with (Z.of_nat (S n)) by lia.
    destruct (decide (n = S L)) as [->|]; [done|].
    rewrite <- El. apply scanLoop_ext; lia. }
  simpl. rewrite get_dot. rewrite scanStep_dot by lia. simpl.
  destruct (scanLoop_stem L 0) as (pre & Hpre & ->); [lia|].
  specialize (Hpre HL). simpl.
  destruct (Z.of_nat L =? -1) eqn:E1; [apply Z.eqb_eq in E1; lia|].
  destruct (Z.of_nat len =? -1) eqn:E2; [apply Z.eqb_eq in E2; lia|].
  destruct (pre =? 0) eqn:E3; [apply Z.eqb_eq in E3; lia|].
  destruct (Z.of_nat L =? Z.of_nat len - 1) eqn:E4; [apply Z.eqb_eq in E4; lia|].
  rewrite andb_false_r. simpl.
  unfold slice. fold len.
  destruct (Z.of_nat L <? 0) eqn:E5; [apply Z.ltb_lt in E5; lia|].
  destruct (Z.of_nat len <? 0) eqn:E6; [apply Z.ltb_lt in E6; lia|].
  rewrite Z.min_id, (Z.min_l (Z.of_nat L)) by lia.
  rewrite Nat2Z.id.
  replace (Z.to_nat (Z.of_nat len - Z.of_nat L)) with (S (String.length e)) by lia.
  unfold path, L. rewrite sliceFrom_app.
  apply (sliceTo_all ("." +:+ e)).
Qed.
End Scan.
End ExtnameLemmas.

(** ** The classifier *)

Section ClassifierProperties.

Import JS Generator.

Lemma categoryOfName_firstMatch nameLower :
  categoryOfName nameLower = Spec.firstMatch Spec.categoryRules nameLower.
Proof.
  unfold categoryOfName. simpl. rewrite !orb_false_r. reflexivity.
Qed.

Lemma categoryOfName_exec nameLower :
  includes nameLower "exec" = true → categoryOfName nameLower = "overview".
Proof. unfold categoryOfName. by intros ->. Qed.

Lemma firstMatch_first rules nameLower i keywords cat :
  rules !! i = Some (keywords, cat) →
  existsb (includes nameLower) keywords = true →
  (∀ j keywords' cat', (j < i)%nat → rules !! j = Some (keywords', cat') →
     existsb (includes nameLower) keywords' = false) →
  Spec.firstMatch rules nameLower = cat.
Proof.
  revert i. induction rules as [|[kws0 cat0] rules IH]; intros i Hi Hm Hearlier.
  - done.
  - destruct i as [|i]; simpl in *.
    + injection Hi as -> ->. by rewrite Hm.
    + rewrite (Hearlier 0%nat kws0 cat0) by (done || lia).
      apply (IH i); [done..|].
      intros j kws' cat' Hj Hl. apply (Hearlier (S j) kws' cat'); [lia|done].
Qed.

Lemma firstMatch_none rules nameLower :
  (∀ keywords cat, (keywords, cat) ∈ rules →
     existsb (includes nameLower) keywords = false) →
  Spec.firstMatch rules nameLower = "appendix".
Proof.
  induction rules as [|[kws0 cat0] rules IH]; intros Hnone; [done|]. simpl.
  rewrite (Hnone kws0 cat0) by apply list_elem_of_here.
  apply IH. intros kws cat Hin. apply (Hnone kws cat). by apply list_elem_of_further.
Qed.

(** C1. The category of every filename is the one of the first rule, in
    the order overview, financials, team, product, market, legal, pitch,
    one of whose keywords occurs in the lowercased filename: a rule that
    matches while no earlier rule does gives its category, and a filename
    that no rule matches is given appendix; so a filename in which exec
    occurs (in any case, or written in lower case) is classified overview,
    whatever else occurs in it, financial included. The chain of tests is
    first-match on whatever string it is given as the lowercased name. *)
Theorem category_first_match_wins :
  (∀ nameLower,
     categoryOfName nameLower = Spec.firstMatch Spec.categoryRules nameLower)
  ∧ (∀ file,
       category (classifyFile file)
       = Spec.firstMatch Spec.categoryRules (toLowerCase file))
  ∧ (∀ file i keywords cat,
       Spec.categoryRules !! i = Some (keywords, cat) →
       existsb (includes (toLowerCase file)) keywords = true →
       (∀ j keywords' cat', (j < i)%nat →
          Spec.categoryRules !! j = Some (keywords', cat') →
          existsb (includes (toLowerCase file)) keywords' = false) →
       category (classifyFile file) = cat)
  ∧ (∀ file,
       (∀ keywords cat, (keywords, cat) ∈ Spec.categoryRules →
          existsb (includes (toLowerCase file)) keywords = false) →
       category (classifyFile file) = "appendix")
  ∧ (∀ file, includes (toLowerCase file) "exec" = true →
       category (classifyFile file) = "overview")
  ∧ (∀ file, includes file "exec" = true → includes file "financial" = true →
       category (classifyFile file) = "overview").
Proof.
  split; [apply categoryOfName_firstMatch|].
  split; [intros file; apply categoryOfName_firstMatch|].
  split; [|split; [|split]].
  - intros file i kws cat Hi Hm Hearlier. simpl.
    rewrite categoryOfName_firstMatch. by apply (firstMatch_first _ _ i kws).
  - intros file Hnone. simpl.
    rewrite categoryOfName_firstMatch. by apply firstMatch_none.
  - intros file. apply categoryOfName_exec.
  - intros file Hexec _. apply categoryOfName_exec.
    by apply includes_toLowerCase.
Qed.

Lemma category_first_match_wins_witness :
  category (classifyFile "Financial-Report-EXEC.pdf") = "overview"
  ∧ category (classifyFile "exec-financial.xlsx") = "overview"
  ∧ category (classifyFile "Pitch-Deck-Legal.pdf") = "legal".
Proof.
  destruct category_first_match_wins as (_ & _ & Hfirst & _ & Hlower & Hboth).
  split; [|split].
  - apply Hlower. reflexivity.
  - apply Hboth; reflexivity.
  - apply (Hfirst "Pitch-Deck-Legal.pdf" 5%nat ["legal"; "term"] "legal");
      [reflexivity|reflexivity|].
    intros j kws cat Hj Hl.
    do 5 (destruct j as [|j]; [injection Hl as <- <-; reflexivity|]). lia.
Defined.

Lemma typeOfExt_lookupType ext :
  typeOfExt ext = Spec.lookupType Spec.typeTable ext.
Proof.
  unfold typeOfExt, isOneOf. simpl.
  replace (bool_decide (ext ∈ [".pdf"])) with (bool_decide (ext = ".pdf")).
  - reflexivity.
  - apply bool_decide_ext. rewrite list_elem_of_singleton. done.
Qed.

Lemma lookupType_group exts ty ext :
  (exts, ty) ∈ Spec.typeTable → ext ∈ exts →
  Spec.lookupType Spec.typeTable ext = ty.
Proof.
  unfold Spec.typeTable. intros Hg He.
  repeat (apply elem_of_cons in Hg as [Hg|Hg];
          [injection Hg as -> ->;
           repeat (apply elem_of_cons in He as [->|He]; [reflexivity|]);
           by apply elem_of_nil in He|]).
  by apply elem_of_nil in Hg.
Qed.

Lemma lookupType_other ext :
  (∀ exts ty, (exts, ty) ∈ Spec.typeTable → ext ∉ exts) →
  Spec.lookupType Spec.typeTable ext = "unknown".
Proof.
  intros H. unfold Spec.typeTable in *. simpl.
  repeat (rewrite bool_decide_eq_false_2;
          [|eapply H; repeat first [apply list_elem_of_here|apply list_elem_of_further]]).
  reflexivity.
Qed.

(** C2. The chain of tests on the extension is the fixed table, and the
    type of every filename is the one the table gives the lowercased
    [path.extname] of the name: an extension listed in a group
    gives the type of the group, whatever its case, an extension in no
    group gives unknown; two names whose extensions agree up to case have
    the same type; and for a name made of a non-empty stem, a dot and a
    non-empty extension without dot, the extension that counts is the
    part after that dot. *)
Theorem type_by_extension_table :
  (∀ ext, typeOfExt ext = Spec.lookupType Spec.typeTable ext)
  ∧ (∀ file, type (classifyFile file)
           = Spec.lookupType Spec.typeTable (toLowerCase (Path.extname file)))
  ∧ (∀ file exts ty, (exts, ty) ∈ Spec.typeTable →
       toLowerCase (Path.extname file) ∈ exts → type (classifyFile file) = ty)
  ∧ (∀ file, (∀ exts ty, (exts, ty) ∈ Spec.typeTable →
                toLowerCase (Path.extname file) ∉ exts) →
       type (classifyFile file) = "unknown")
  ∧ (∀ f1 f2, toLowerCase (Path.extname f1) = toLowerCase (Path.extname f2) →
       type (classifyFile f1) = type (classifyFile f2))
  ∧ (∀ stem e, stem ≠ "" → Spec.noSlash stem = true →
       e ≠ "" → noSlashDot e = true →
       type (classifyFile (stem +:+ "." +:+ e))
       = Spec.lookupType Spec.typeTable ("." +:+ toLowerCase e)).
Proof.
  split; [apply typeOfExt_lookupType|].
  split; [|split; [|split; [|split]]].
  - intros file. apply typeOfExt_lookupType.
  - intros file exts ty Hg He. simpl. rewrite typeOfExt_lookupType.
    by apply (lookupType_group exts).
  - intros file H. simpl. rewrite typeOfExt_lookupType.
    by apply lookupType_other.
  - intros f1 f2 H. simpl. by rewrite H.
  - intros stem e Hs Hns He Hne. simpl.
    rewrite extname_stem_ext_aux by done.
    apply typeOfExt_lookupType.
Qed.

Lemma type_by_extension_table_witness :
  type (classifyFile ("Board Minutes" +:+ "." +:+ "DocX")) = "document"
  ∧ type (classifyFile "notes.TXT") = "markdown".
Proof.
  destruct type_by_extension_table as (_ & _ & Hgroup & _ & _ & Hstem). split.
  - rewrite (Hstem "Board Minutes" "DocX"); [reflexivity|done|reflexivity|done|reflexivity].
  - apply (Hgroup "notes.TXT" [".md"; ".mdx"; ".txt"] "markdown").
    + apply list_elem_of_here.
    + change (toLowerCase (Path.extname "notes.TXT")) with ".txt".
      do 2 apply list_elem_of_further. apply list_elem_of_here.
Defined.

(** C3. When the raw directory of the project does not exist, the
    classifier returns the empty sequence and leaves the world as it is,
    although reading that directory would throw; a caller gets from it
    exactly what it gets for a directory that exists and is empty. *)
Theorem classifyFiles_missing_directory (SLUG : string) (w : world) :
  raw (projectAt w SLUG) = None →
  classifyFiles SLUG w = (Ok [], w)
  ∧ readdirRaw SLUG w = (Err ENOENT, w)
  ∧ ∀ w', raw (projectAt w' SLUG) = Some [] →
          (classifyFiles SLUG w').1 = (classifyFiles SLUG w).1.
Proof.
  intros Hraw. unfold classifyFiles, bind, existsRaw, readdirRaw, ret.
  rewrite Hraw. simpl. split; [done|]. split; [done|].
  intros w' Hraw'. rewrite Hraw'. simpl. rewrite Hraw'. reflexivity.
Qed.

Lemma classifyFiles_missing_directory_witness :
  classifyFiles "acme" Fixtures.emptyWorld = (Ok [], Fixtures.emptyWorld).
Proof.
  apply (proj1 (classifyFiles_missing_directory "acme" Fixtures.emptyWorld eq_refl)).
Defined.

End ClassifierProperties.

(** ** The drive id *)

Section DriveId.

Import JS Generator.

Lemma startsWith_length k s :
  startsWith k s = true → (String.length k ≤ String.length s)%nat.
Proof.
  revert s. induction k as [|a k IH]; intros [|b s]; simpl; try done; try lia.
  destruct (decide (a = b)); [|done]. intros H%IH. lia.
Qed.

Lemma splitFrom_skip sep k s :
  (k ≤ String.length s)%nat →
  splitFrom sep k s = splitFrom sep 0 (sliceFrom k s).
Proof.
  revert k. induction s as [|c s IH]; intros k; simpl.
  - intros Hk. by replace k with 0%nat by lia.
  - destruct k as [|k]; [done|]. intros Hk. simpl. apply IH. lia.
Qed.

Lemma splitFrom_head sep s : head (splitFrom sep 0 s) = Some (before sep s).
Proof.
  induction s as [|c s IH].
  - simpl. by destruct (startsWith sep "").
  - cbn [splitFrom before]. destruct (startsWith sep (String c s)); [done|].
    destruct (splitFrom sep 0 s) as [|p ps]; [done|].
    simpl in *. by injection IH as ->.
Qed.

Lemma consHead_tail c parts i :
  parts ≠ [] → consHead c parts !! S i = parts !! S i.
Proof. by destruct parts. Qed.

Lemma splitFrom_second sep s :
  sep ≠ "" → includes s sep = true →
  splitFrom sep 0 s !! 1%nat = before sep <$> after sep s.
Proof.
  intros Hsep. induction s as [|c s IH].
  - simpl. destruct sep; done.
  - cbn [splitFrom includes after].
    destruct (startsWith sep (String c s)) eqn:Hst.
    + intros _.
      change (splitFrom sep (String.length sep - 1) s !! 0%nat
              = Some (before sep (sliceFrom (String.length sep) (String c s)))).
      apply startsWith_length in Hst. simpl in Hst.
      rewrite splitFrom_skip by lia.
      rewrite <- head_lookup, splitFrom_head. simpl.
      destruct sep as [|a sep]; [done|]. simpl. by rewrite Nat.sub_0_r.
    + simpl. intros H. rewrite consHead_tail; [by apply IH|].
      pose proof (splitFrom_head sep s) as Hh.
      by destruct (splitFrom sep 0 s).
Qed.

Lemma before_absent sep s : includes s sep = false → before sep s = s.
Proof.
  induction s as [|c s IH]; cbn [includes before].
  - by destruct (startsWith sep "").
  - intros [-> H]%orb_false_iff. f_equal. auto.
Qed.

Lemma DRIVE_ID_between drive : Cli.DRIVE_ID drive = Spec.driveIdBetween drive.
Proof.
  unfold Cli.DRIVE_ID, Spec.driveIdBetween.
  destruct (includes drive "folders/") eqn:Hinc; [|done].
  unfold split. rewrite splitFrom_second by done.
  destruct (after "folders/" drive) as [rest|]; [|done]. simpl.
  by rewrite <- head_lookup, splitFrom_head.
Qed.

(** C8, as stated, fails: when [folders/] occurs twice, the code stops at
    the second occurrence, whereas the portion after the first one runs
    on to the question mark or the end. *)
Lemma drive_id_after_first_counterexample :
  ¬ (∀ drive, Cli.DRIVE_ID drive = Spec.driveIdAfterFirst drive).
Proof.
  intros H.
  specialize (H "https://drive.google.com/drive/folders/ABC/folders/DEF").
  vm_compute in H. discriminate H.
Qed.

(** C8, amended. For every [--drive] argument in which [folders/] occurs,
    the extracted id is the portion between the first [folders/] and the
    next one (the end of the argument when there is none), truncated at
    the first question mark, so it is the portion after the first
    [folders/] truncated at the first question mark whenever [folders/]
    occurs once; an argument without [folders/] is returned unchanged;
    the URL of §8 yields ABC123 and the bare ABC123 yields itself. *)
Theorem drive_id_extraction :
  (∀ drive, Cli.DRIVE_ID drive = Spec.driveIdBetween drive)
  ∧ (∀ drive rest, after "folders/" drive = Some rest →
       includes rest "folders/" = false →
       Cli.DRIVE_ID drive = Some (before "?" rest))
  ∧ (∀ drive, includes drive "folders/" = false → Cli.DRIVE_ID drive = Some drive)
  ∧ Cli.DRIVE_ID "https://drive.google.com/drive/folders/ABC123?usp=sharing"
    = Some "ABC123"
  ∧ Cli.DRIVE_ID "ABC123" = Some "ABC123".
Proof.
  split; [apply DRIVE_ID_between|]. split; [|split; [|split; reflexivity]].
  - intros drive rest Hafter Hrest.
    rewrite DRIVE_ID_between. unfold Spec.driveIdBetween.
    rewrite Hafter. simpl. rewrite (before_absent "folders/" rest) by done.
    destruct (includes drive "folders/") eqn:Hinc; [done|].
    exfalso. clear Hrest. revert Hafter Hinc.
    induction drive as [|c s IH]; cbn [after includes].
    + by destruct (startsWith "folders/" "").
    + destruct (startsWith "folders/" (String c s)); [done|]. simpl. auto.
  - intros drive Hinc. unfold Cli.DRIVE_ID. by rewrite Hinc.
Qed.

End DriveId.

(** ** The metadata generator *)

Section MetadataProperties.

Import JS Generator.

Lemma Set_add_cases (s : list string) x :
  (x ∈ s ∧ Set_add s x = s) ∨ ((x ∉ s) ∧ Set_add s x = s ++ [x]).
Proof.
  unfold Set_add. destruct (decide (x ∈ s)) as [H|H].
  - left. by rewrite bool_decide_eq_true_2.
  - right. by rewrite bool_decide_eq_false_2.
Qed.

(** Adding the elements of [xs] to a set that holds [acc] appends, in
    first-seen order, those that [acc] lacks. *)
Lemma foldl_Set_add (xs acc : list string) :
  foldl Set_add acc xs = acc ++ filter (fun y => (y ∉ acc)) (Spec.firstSeen xs).
Proof.
  revert acc. induction xs as [|x xs IH]; intros acc; simpl.
  - by rewrite app_nil_r.
  - rewrite IH. destruct (Set_add_cases acc x) as [[Hin ->]|[Hnin ->]].
    + rewrite filter_cons_False by (intros H; by apply H).
      rewrite list_filter_filter. f_equal. apply list_filter_iff.
      intros y. split; [|tauto]. intros Hy. split; [done|].
      intros ->. by apply Hy.
    + rewrite filter_cons_True by done. rewrite <- app_assoc. simpl.
      do 2 f_equal. rewrite list_filter_filter. apply list_filter_iff.
      intros y. rewrite elem_of_app, list_elem_of_singleton. tauto.
Qed.

Lemma newSet_firstSeen xs : newSet xs = Spec.firstSeen xs.
Proof.
  unfold newSet. rewrite foldl_Set_add. simpl.
  induction (Spec.firstSeen xs) as [|y l IH]; [done|].
  rewrite filter_cons_True by apply not_elem_of_nil. by rewrite IH.
Qed.

Lemma elem_of_firstSeen xs c : c ∈ Spec.firstSeen xs ↔ c ∈ xs.
Proof.
  induction xs as [|x xs IH]; simpl; [done|].
  rewrite !elem_of_cons, list_elem_of_filter, IH.
  destruct (decide (c = x)); tauto.
Qed.

Lemma NoDup_firstSeen xs : NoDup (Spec.firstSeen xs).
Proof.
  induction xs as [|x xs IH]; simpl; [constructor|].
  apply NoDup_cons. split.
  - rewrite list_elem_of_filter. tauto.
  - by apply NoDup_filter.
Qed.

(** What [generateMetadata] returns and stores. *)
Lemma generateMetadata_run DRIVE_ID SLUG VISIBILITY classified w :
  ∃ m w',
    generateMetadata DRIVE_ID SLUG VISIBILITY classified w = (Ok m, w')
    ∧ metadataJson (projectAt w' SLUG) = Some m
    ∧ time w' = time w ∧ reads w' = S (S (reads w))
    ∧ createdAt m = time w (reads w)
    ∧ updatedAt m = time w (S (reads w))
    ∧ fileCount m = length classified
    ∧ categories m = newSet (map category classified)
    ∧ slug m = SLUG ∧ visibility m = VISIBILITY ∧ driveFolder m = DRIVE_ID.
Proof.
  unfold generateMetadata, bind, now, writeMetadata, ret. simpl.
  eexists _, _. split; [reflexivity|]. simpl.
  split; [|done]. unfold projectAt, setProject. simpl.
  by rewrite lookup_insert_eq.
Qed.

(** C6. For every classified sequence the metadata has [fileCount] equal
    to the length of the sequence and [categories] equal to the distinct
    categories of the sequence in first-seen order: no category twice,
    exactly the categories that occur; for the three files of the
    scenario the record has 3 and overview, financials, appendix. *)
Theorem metadata_count_and_categories :
  (∀ DRIVE_ID SLUG VISIBILITY classified w,
     ∃ m w',
       generateMetadata DRIVE_ID SLUG VISIBILITY classified w = (Ok m, w')
       ∧ fileCount m = length classified
       ∧ categories m = Spec.firstSeen (map category classified)
       ∧ NoDup (categories m)
       ∧ ∀ c, c ∈ categories m ↔ ∃ f, f ∈ classified ∧ category f = c)
  ∧ (∀ DRIVE_ID SLUG VISIBILITY w,
       ∃ m w',
         generateMetadata DRIVE_ID SLUG VISIBILITY
           (map classifyFile Fixtures.scenarioFiles) w = (Ok m, w')
         ∧ fileCount m = 3%nat
         ∧ categories m = ["overview"; "financials"; "appendix"]).
Proof.
  split.
  - intros D S V classified w.
    destruct (generateMetadata_run D S V classified w)
      as (m & w' & Hrun & _ & _ & _ & _ & _ & Hcount & Hcat & _).
    exists m, w'. rewrite Hcat, newSet_firstSeen.
    split; [done|]. split; [done|]. split; [done|].
    split; [apply NoDup_firstSeen|].
    intros c. rewrite elem_of_firstSeen.
    change (map category classified) with (category <$> classified).
    rewrite list_elem_of_fmap. split.
    + intros (f & -> & Hf). by exists f.
    + intros (f & Hf & <-). by exists f.
  - intros D S V w.
    destruct (generateMetadata_run D S V (map classifyFile Fixtures.scenarioFiles) w)
      as (m & w' & Hrun & _ & _ & _ & _ & _ & Hcount & Hcat & _).
    exists m, w'. rewrite Hcat, Hcount. split; [done|]. split; reflexivity.
Qed.

End MetadataProperties.

(** ** One run of the pipeline *)

Section PipelineRun.

Import JS Generator.

Lemma projectAt_setProject dir d w dir' :
  projectAt (setProject dir d w) dir' = if decide (dir = dir') then d else projectAt w dir'.
Proof.
  unfold projectAt, setProject. simpl. rewrite lookup_insert.
  by destruct (decide (dir = dir')).
Qed.

Lemma projectAt_setProject_eq dir d w : projectAt (setProject dir d w) dir = d.
Proof. rewrite projectAt_setProject. by rewrite decide_True. Qed.

Lemma projectAt_setProject_ne dir d w dir' :
  dir ≠ dir' → projectAt (setProject dir d w) dir' = projectAt w dir'.
Proof. intros H. rewrite projectAt_setProject. by rewrite decide_False. Qed.

Lemma projectAt_setSite dir d w dir' :
  projectAt (setSite dir d w) dir' = projectAt w dir'.
Proof. reflexivity. Qed.

Lemma projectAt_advance w dir : projectAt (advance w) dir = projectAt w dir.
Proof. reflexivity. Qed.

Lemma siteAt_setSite_eq dir d w : siteAt (setSite dir d w) dir = d.
Proof. unfold siteAt, setSite. simpl. by rewrite lookup_insert_eq. Qed.

Lemma siteAt_setProject dir d w dir' :
  siteAt (setProject dir d w) dir' = siteAt w dir'.
Proof. reflexivity. Qed.

Lemma siteAt_advance w dir : siteAt (advance w) dir = siteAt w dir.
Proof. reflexivity. Qed.

Lemma time_setProject dir d w : time (setProject dir d w) = time w.
Proof. reflexivity. Qed.

Lemma time_setSite dir d w : time (setSite dir d w) = time w.
Proof. reflexivity. Qed.

Lemma time_advance w : time (advance w) = time w.
Proof. reflexivity. Qed.

Lemma reads_setProject dir d w : reads (setProject dir d w) = reads w.
Proof. reflexivity. Qed.

Lemma reads_setSite dir d w : reads (setSite dir d w) = reads w.
Proof. reflexivity. Qed.

Lemma reads_advance w : reads (advance w) = S (reads w).
Proof. reflexivity. Qed.

Ltac observe :=
  repeat first
    [ rewrite projectAt_setSite | rewrite projectAt_setProject_eq
    | rewrite projectAt_advance | rewrite siteAt_setProject
    | rewrite siteAt_setSite_eq | rewrite siteAt_advance
    | rewrite time_setProject | rewrite time_setSite | rewrite time_advance
    | rewrite reads_setProject | rewrite reads_setSite | rewrite reads_advance
    | progress cbn [raw metadataJson driveManifestJson indexMdx metaTs
                    appendixMdx changelogMdx negb default from_option fst snd] ].

Ltac frame :=
  let dir := fresh "dir" in
  let Hdir := fresh "Hdir" in
  intros dir Hdir;
  repeat first [ rewrite projectAt_setSite | rewrite projectAt_advance
               | rewrite projectAt_setProject_ne by done ];
  reflexivity.

Ltac run_step :=
  eexists; split; [reflexivity|]; unfold post; observe;
  repeat split; try reflexivity; try frame.

Lemma bind_ok {A B} (m : M A) (k : A → M B) w a w1 :
  m w = (Ok a, w1) → bind m k w = k a w1.
Proof. unfold bind. by intros ->. Qed.

Lemma setupDirectories_post SLUG w :
  ∃ w', setupDirectories SLUG w = (Ok (), w')
    ∧ post SLUG w w'
        {| raw := Some (rawEntries w SLUG);
           metadataJson := metadataJson (projectAt w SLUG);
           driveManifestJson := driveManifestJson (projectAt w SLUG) |}
        (siteAt w SLUG) (reads w).
Proof.
  unfold setupDirectories, bind, mkdirRaw, mkdirSite. cbn beta iota zeta.
  run_step.
Qed.

Lemma scanDriveFolder_post DRIVE_ID SLUG w :
  ∃ w', scanDriveFolder DRIVE_ID SLUG w
        = (Ok {| folderId := DRIVE_ID; scannedAt := time w (reads w); files := [];
                 instructions := "Place exported Google Drive files in the /raw directory. Supported: .docx, .pdf, .xlsx, .csv, .pptx, .md, .txt" |}, w')
    ∧ post SLUG w w'
        {| raw := raw (projectAt w SLUG);
           metadataJson := metadataJson (projectAt w SLUG);
           driveManifestJson :=
             Some {| folderId := DRIVE_ID; scannedAt := time w (reads w); files := [];
                     instructions := "Place exported Google Drive files in the /raw directory. Supported: .docx, .pdf, .xlsx, .csv, .pptx, .md, .txt" |} |}
        (siteAt w SLUG) (S (reads w)).
Proof.
  unfold scanDriveFolder, bind, now, writeManifest, ret. cbn beta iota zeta.
  run_step.
Qed.

Lemma classifyFiles_post SLUG w :
  classifyFiles SLUG w = (Ok (map classifyFile (rawNames w SLUG)), w).
Proof.
  unfold classifyFiles, bind, existsRaw, readdirRaw, ret, rawNames, rawEntries.
  cbn beta iota zeta.
  destruct (raw (projectAt w SLUG)) eqn:E; cbn [negb]; cbn beta iota; rewrite ?E; done.
Qed.

Lemma generateMetadata_post DRIVE_ID SLUG VISIBILITY classified w :
  let m := metadataOf DRIVE_ID SLUG VISIBILITY classified (time w) (reads w) in
  ∃ w', generateMetadata DRIVE_ID SLUG VISIBILITY classified w = (Ok m, w')
    ∧ post SLUG w w'
        {| raw := raw (projectAt w SLUG);
           metadataJson := Some m;
           driveManifestJson := driveManifestJson (projectAt w SLUG) |}
        (siteAt w SLUG) (S (S (reads w))).
Proof.
  unfold generateMetadata, bind, now, writeMetadata, ret. cbn beta iota zeta.
  observe. run_step.
Qed.

Lemma generateMDXPages_post DRIVE_ID SLUG m classified w :
  ∃ w', generateMDXPages DRIVE_ID SLUG m classified w = (Ok (), w')
    ∧ post SLUG w w' (projectAt w SLUG)
        {| indexMdx := Some (indexMdxText DRIVE_ID m classified
                               (dateOf (time w (reads w))));
           metaTs := Some (metaTsText classified);
           appendixMdx := Some (appendixMdxText SLUG m classified
                                  (dateOf (time w (S (reads w)))));
           changelogMdx := changelogMdx (siteAt w SLUG) |}
        (S (S (reads w))).
Proof.
  unfold generateMDXPages, bind, now, writeIndex, writeMetaTs, writeAppendix.
  cbn beta iota zeta. observe. run_step.
Qed.

Lemma generateChangelog_post SLUG m w :
  ∃ w', generateChangelog SLUG m w = (Ok (), w')
    ∧ post SLUG w w' (projectAt w SLUG)
        {| indexMdx := indexMdx (siteAt w SLUG);
           metaTs := metaTs (siteAt w SLUG);
           appendixMdx := appendixMdx (siteAt w SLUG);
           changelogMdx := Some (changelogText m (dateOf (time w (reads w)))) |}
        (S (reads w)).
Proof.
  unfold generateChangelog, bind, now, writeChangelog. cbn beta iota zeta.
  observe. run_step.
Qed.

Lemma pipeline_run DRIVE_ID SLUG VISIBILITY w :
  let classified := map classifyFile (rawNames w SLUG) in
  let m := metadataOf DRIVE_ID SLUG VISIBILITY classified (time w) (S (reads w)) in
  ∃ r w',
    pipeline DRIVE_ID SLUG VISIBILITY w = (Ok r, w')
    ∧ run_classified r = classified
    ∧ run_metadata r = m
    ∧ post SLUG w w'
        {| raw := Some (rawEntries w SLUG);
           metadataJson := Some m;
           driveManifestJson := Some (run_manifest r) |}
        {| indexMdx := Some (indexMdxText DRIVE_ID m classified
                               (dateOf (time w (3 + reads w))));
           metaTs := Some (metaTsText classified);
           appendixMdx := Some (appendixMdxText SLUG m classified
                                  (dateOf (time w (4 + reads w))));
           changelogMdx := Some (changelogText m (dateOf (time w (5 + reads w)))) |}
        (6 + reads w).
Proof.
  intros classified m. unfold pipeline.
  destruct (setupDirectories_post SLUG w) as (w1 & E1 & P1 & S1 & F1 & T1 & R1).
  rewrite (bind_ok _ _ _ _ _ E1).
  destruct (scanDriveFolder_post DRIVE_ID SLUG w1) as (w2 & E2 & P2 & S2 & F2 & T2 & R2).
  rewrite (bind_ok _ _ _ _ _ E2).
  rewrite (bind_ok _ _ _ _ _ (classifyFiles_post SLUG w2)).
  assert (rawNames w2 SLUG = rawNames w SLUG) as ->.
  { unfold rawNames at 1, rawEntries at 1. by rewrite P2, P1. }
  fold classified.
  destruct (generateMetadata_post DRIVE_ID SLUG VISIBILITY classified w2)
    as (w3 & E3 & P3 & S3 & F3 & T3 & R3).
  assert (metadataOf DRIVE_ID SLUG VISIBILITY classified (time w2) (reads w2) = m) as Hm.
  { unfold m. by rewrite T2, T1, R2, R1. }
  cbv zeta in E3, P3. rewrite Hm in E3, P3.
  rewrite (bind_ok _ _ _ _ _ E3).
  destruct (generateMDXPages_post DRIVE_ID SLUG m classified w3)
    as (w4 & E4 & P4 & S4 & F4 & T4 & R4).
  rewrite (bind_ok _ _ _ _ _ E4).
  destruct (generateChangelog_post SLUG m w4) as (w5 & E5 & P5 & S5 & F5 & T5 & R5).
  rewrite (bind_ok _ _ _ _ _ E5).
  unfold ret. eexists _, w5. split; [reflexivity|].
  cbn [run_classified run_metadata run_manifest].
  split; [done|]. split; [done|].
  unfold post. split; [|split; [|split; [|split]]].
  - rewrite P5, P4, P3, P2, P1. cbn [raw metadataJson driveManifestJson]. reflexivity.
  - rewrite S5, S4. cbn [indexMdx metaTs appendixMdx].
    by rewrite T4, T3, T2, T1, R4, R3, R2, R1.
  - intros dir Hdir. by rewrite F5, F4, F3, F2, F1.
  - by rewrite T5, T4, T3, T2, T1.
  - by rewrite R5, R4, R3, R2, R1.
Qed.

(** Extraction of the drive id never throws. *)
Lemma DRIVE_ID_total drive : is_Some (Cli.DRIVE_ID drive).
Proof.
  rewrite DRIVE_ID_between. unfold Spec.driveIdBetween.
  destruct (includes drive "folders/") eqn:Hinc; [|by eexists].
  assert (is_Some (after "folders/" drive)) as [rest ->]; [|by eexists].
  induction drive as [|c s IH]; cbn [after includes] in *.
  - by destruct (startsWith "folders/" "").
  - destruct (startsWith "folders/" (String c s)); [by eexists|]. by apply IH.
Qed.

(** The script started on arguments that pass the usage check. *)
Lemma main_run a w drive slugArg :
  arg_drive a = Some drive → arg_slug a = Some slugArg →
  drive ≠ "" → slugArg ≠ "" →
  ∃ driveId, Cli.DRIVE_ID drive = Some driveId
    ∧ main a w = pipeline driveId (Cli.SLUG slugArg)
                   (Cli.VISIBILITY (arg_visibility a)) w.
Proof.
  intros Hd Hs Hdne Hsne. unfold main. rewrite Hd, Hs.
  assert (truthy (Some drive) = true) as -> by (destruct drive; [congruence|done]).
  assert (truthy (Some slugArg) = true) as -> by (destruct slugArg; [congruence|done]).
  cbn [negb orb]. change (default "" (Some drive)) with drive.
  change (default "" (Some slugArg)) with slugArg.
  destruct (DRIVE_ID_total drive) as [driveId ->]. by exists driveId.
Qed.

(** A run on arguments that pass the usage check completes, and this is
    what it returns and leaves on disk. *)
Lemma main_ok a w drive slugArg :
  arg_drive a = Some drive → arg_slug a = Some slugArg →
  drive ≠ "" → slugArg ≠ "" →
  let SLUG := Cli.SLUG slugArg in
  let classified := map classifyFile (rawNames w SLUG) in
  ∃ driveId r w',
    Cli.DRIVE_ID drive = Some driveId
    ∧ main a w = (Ok r, w')
    ∧ run_classified r = classified
    ∧ run_metadata r
      = metadataOf driveId SLUG (Cli.VISIBILITY (arg_visibility a)) classified
          (time w) (S (reads w))
    ∧ post SLUG w w'
        {| raw := Some (rawEntries w SLUG);
           metadataJson := Some (run_metadata r);
           driveManifestJson := Some (run_manifest r) |}
        {| indexMdx := Some (indexMdxText driveId (run_metadata r) classified
                               (dateOf (time w (3 + reads w))));
           metaTs := Some (metaTsText classified);
           appendixMdx := Some (appendixMdxText SLUG (run_metadata r) classified
                                  (dateOf (time w (4 + reads w))));
           changelogMdx := Some (changelogText (run_metadata r)
                                   (dateOf (time w (5 + reads w)))) |}
        (6 + reads w).
Proof.
  intros Hd Hs Hdne Hsne SLUG classified.
  destruct (main_run a w drive slugArg Hd Hs Hdne Hsne) as (driveId & Hid & ->).
  destruct (pipeline_run driveId SLUG (Cli.VISIBILITY (arg_visibility a)) w)
    as (r & w' & Hrun & Hc & Hm & Hpost).
  exists driveId, r, w'. rewrite Hm. done.
Qed.

End PipelineRun.

(** ** Regeneration *)

Section Regeneration.

Import JS Generator.

(** C9. Every run of the metadata generator takes [createdAt] and
    [updatedAt] from the clock, at two successive readings, and stores
    the record; so the [createdAt] of a run of the script is the second
    reading of the clock during that run, whatever [metadata.json] held
    before, and a second run replaces the stored [createdAt] of the first
    by a reading six readings later. *)
Theorem createdAt_recomputed_on_every_run :
  (∀ DRIVE_ID SLUG VISIBILITY classified w,
     ∃ m w',
       generateMetadata DRIVE_ID SLUG VISIBILITY classified w = (Ok m, w')
       ∧ createdAt m = time w (reads w)
       ∧ updatedAt m = time w (S (reads w))
       ∧ metadataJson (projectAt w' SLUG) = Some m)
  ∧ (∀ a w drive slugArg,
       arg_drive a = Some drive → arg_slug a = Some slugArg →
       drive ≠ "" → slugArg ≠ "" →
       ∃ r w',
         main a w = (Ok r, w')
         ∧ createdAt (run_metadata r) = time w (1 + reads w)
         ∧ updatedAt (run_metadata r) = time w (2 + reads w)
         ∧ metadataJson (projectAt w' (Cli.SLUG slugArg)) = Some (run_metadata r)
         ∧ ∃ r2 w'',
             main a w' = (Ok r2, w'')
             ∧ createdAt (run_metadata r2) = time w (7 + reads w)
             ∧ metadataJson (projectAt w'' (Cli.SLUG slugArg))
               = Some (run_metadata r2)).
Proof.
  split.
  - intros D S V classified w.
    destruct (generateMetadata_run D S V classified w)
      as (m & w' & Hrun & Hstored & _ & _ & Hc & Hu & _).
    by exists m, w'.
  - intros a w drive slugArg Hd Hs Hdne Hsne.
    destruct (main_ok a w drive slugArg Hd Hs Hdne Hsne)
      as (driveId & r & w' & Hid & Hrun & _ & Hm & HP & _ & _ & HT & HR).
    exists r, w'. split; [done|]. rewrite Hm at 1 2. cbn [createdAt updatedAt metadataOf].
    split; [done|]. split; [done|]. split; [by rewrite HP|].
    destruct (main_ok a w' drive slugArg Hd Hs Hdne Hsne)
      as (driveId2 & r2 & w'' & _ & Hrun2 & _ & Hm2 & HP2 & _).
    exists r2, w''. split; [done|]. rewrite Hm2 at 1. cbn [createdAt metadataOf].
    rewrite HT, HR. split; [done|]. by rewrite HP2.
Qed.

Lemma createdAt_recomputed_on_every_run_witness :
  ∃ r w',
    main Fixtures.acmeArgs (Fixtures.scenarioWorld Fixtures.midnightClock 0) = (Ok r, w')
    ∧ createdAt (run_metadata r) = "2024-12-31T23:59:59.999Z"
    ∧ updatedAt (run_metadata r) = "2025-01-01T00:00:00.000Z"
    ∧ metadataJson (projectAt w' "acme") = Some (run_metadata r)
    ∧ ∃ r2 w'',
        main Fixtures.acmeArgs w' = (Ok r2, w'')
        ∧ createdAt (run_metadata r2) = "2025-01-01T00:00:00.000Z"
        ∧ metadataJson (projectAt w'' "acme") = Some (run_metadata r2).
Proof.
  apply (proj2 createdAt_recomputed_on_every_run Fixtures.acmeArgs
           (Fixtures.scenarioWorld Fixtures.midnightClock 0) "ABC123" "acme");
    done.
Defined.

(** C5. Two runs of the script with the same slug and visibility
    arguments over raw directories that list the same names complete with
    the same classification, hence the same rows of the index table and
    of the appendix table, the same navigation manifest, the same file
    count and categories; the pages each run writes hold those rows; the
    clocks, the modification times, the drive arguments and whatever was
    on disk before may differ between the runs, and the timestamps of the
    two metadata records do differ when the clocks do. *)
Theorem regeneration_same_classification_and_rows :
  (∀ a1 a2 w1 w2 drive1 drive2 slugArg,
     arg_drive a1 = Some drive1 → arg_drive a2 = Some drive2 →
     arg_slug a1 = Some slugArg → arg_slug a2 = Some slugArg →
     drive1 ≠ "" → drive2 ≠ "" → slugArg ≠ "" →
     arg_visibility a1 = arg_visibility a2 →
     rawNames w1 (Cli.SLUG slugArg) = rawNames w2 (Cli.SLUG slugArg) →
     let SLUG := Cli.SLUG slugArg in
     ∃ r1 w1' r2 w2' id1 id2 day1 day2 day1' day2',
       main a1 w1 = (Ok r1, w1') ∧ main a2 w2 = (Ok r2, w2')
       ∧ run_classified r1 = run_classified r2
       ∧ indexRows (run_classified r1) = indexRows (run_classified r2)
       ∧ appendixRows SLUG (run_classified r1) = appendixRows SLUG (run_classified r2)
       ∧ fileCount (run_metadata r1) = fileCount (run_metadata r2)
       ∧ categories (run_metadata r1) = categories (run_metadata r2)
       ∧ indexMdx (siteAt w1' SLUG)
         = Some (indexMdxText id1 (run_metadata r1) (run_classified r1) day1)
       ∧ indexMdx (siteAt w2' SLUG)
         = Some (indexMdxText id2 (run_metadata r2) (run_classified r1) day2)
       ∧ appendixMdx (siteAt w1' SLUG)
         = Some (appendixMdxText SLUG (run_metadata r1) (run_classified r1) day1')
       ∧ appendixMdx (siteAt w2' SLUG)
         = Some (appendixMdxText SLUG (run_metadata r2) (run_classified r1) day2')
       ∧ metaTs (siteAt w1' SLUG) = metaTs (siteAt w2' SLUG))
  ∧ (∃ a w1 w2 r1 w1' r2 w2',
       rawNames w1 "acme" = rawNames w2 "acme"
       ∧ main a w1 = (Ok r1, w1') ∧ main a w2 = (Ok r2, w2')
       ∧ run_classified r1 = run_classified r2
       ∧ createdAt (run_metadata r1) ≠ createdAt (run_metadata r2)
       ∧ updatedAt (run_metadata r1) ≠ updatedAt (run_metadata r2)).
Proof.
  split.
  - intros a1 a2 w1 w2 drive1 drive2 slugArg Hd1 Hd2 Hs1 Hs2 Hn1 Hn2 Hsn Hv Hraw SLUG.
    destruct (main_ok a1 w1 drive1 slugArg Hd1 Hs1 Hn1 Hsn)
      as (id1 & r1 & w1' & _ & Hrun1 & Hc1 & Hm1 & _ & HS1 & _).
    destruct (main_ok a2 w2 drive2 slugArg Hd2 Hs2 Hn2 Hsn)
      as (id2 & r2 & w2' & _ & Hrun2 & Hc2 & Hm2 & _ & HS2 & _).
    fold SLUG in Hc1, Hc2, Hm1, Hm2, HS1, HS2, Hraw.
    assert (run_classified r1 = run_classified r2) as Hc.
    { by rewrite Hc1, Hc2, Hraw. }
    exists r1, w1', r2, w2', id1, id2.
    exists (dateOf (time w1 (3 + reads w1))), (dateOf (time w2 (3 + reads w2))).
    exists (dateOf (time w1 (4 + reads w1))), (dateOf (time w2 (4 + reads w2))).
    split; [done|]. split; [done|]. split; [done|].
    split; [by rewrite Hc|]. split; [by rewrite Hc|].
    split; [by rewrite Hm1, Hm2, Hraw|].
    split; [by rewrite Hm1, Hm2, Hraw|].
    rewrite HS1, HS2. cbn [indexMdx appendixMdx metaTs].
    rewrite Hc1, <- Hraw. done.
  - exists Fixtures.acmeArgs.
    exists (Fixtures.scenarioWorld Fixtures.midnightClock 1000).
    exists (Fixtures.scenarioWorld Fixtures.frozenClock 2000).
    destruct (main_ok Fixtures.acmeArgs
                (Fixtures.scenarioWorld Fixtures.midnightClock 1000) "ABC123" "acme")
      as (id1 & r1 & w1' & _ & Hrun1 & Hc1 & Hm1 & _); [done..|].
    destruct (main_ok Fixtures.acmeArgs
                (Fixtures.scenarioWorld Fixtures.frozenClock 2000) "ABC123" "acme")
      as (id2 & r2 & w2' & _ & Hrun2 & Hc2 & Hm2 & _); [done..|].
    exists r1, w1', r2, w2'.
    split; [reflexivity|]. split; [done|]. split; [done|].
    split; [by rewrite Hc1, Hc2|].
    rewrite Hm1, Hm2. split; discriminate.
Qed.

Lemma regeneration_same_classification_and_rows_witness :
  ∃ r1 w1' r2 w2',
    main Fixtures.acmeArgs (Fixtures.scenarioWorld Fixtures.midnightClock 1000)
      = (Ok r1, w1')
    ∧ main Fixtures.acmeUrlArgs (Fixtures.scenarioWorld Fixtures.frozenClock 2000)
      = (Ok r2, w2')
    ∧ run_classified r1 = run_classified r2
    ∧ indexRows (run_classified r1) = indexRows (run_classified r2)
    ∧ appendixRows "acme" (run_classified r1) = appendixRows "acme" (run_classified r2).
Proof.
  destruct (proj1 regeneration_same_classification_and_rows
              Fixtures.acmeArgs Fixtures.acmeUrlArgs
              (Fixtures.scenarioWorld Fixtures.midnightClock 1000)
              (Fixtures.scenarioWorld Fixtures.frozenClock 2000)
              "ABC123" "https://drive.google.com/drive/folders/XYZ789?usp=sharing"
              "acme" eq_refl eq_refl eq_refl eq_refl)
    as (r1 & w1' & r2 & w2' & _ & _ & _ & _ & _ & _ & H1 & H2 & Hc & Hi & Ha & _);
    [done|done|done|reflexivity|reflexivity|].
  exists r1, w1', r2, w2'. repeat split; assumption.
Defined.

End Regeneration.

(** ** The navigation manifest *)

Section Navigation.

Import JS Generator.

Lemma isPage_true f :
  isPage f = true ↔ type f = "markdown" ∨ type f = "document".
Proof.
  unfold isPage. rewrite orb_true_iff, !bool_decide_eq_true. done.
Qed.

Lemma navEntries_navPairs classified :
  map navEntry (filter (fun f => isPage f = true) classified)
  = map Spec.navLine (Spec.navPairs classified).
Proof.
  induction classified as [|f rest IH]; [done|]. simpl.
  destruct (decide (type f = "markdown" ∨ type f = "document")) as [H|H].
  - rewrite filter_cons_True by (by apply isPage_true).
    rewrite bool_decide_eq_true_2 by done. simpl. by rewrite IH.
  - rewrite filter_cons_False by (by rewrite isPage_true).
    by rewrite bool_decide_eq_false_2.
Qed.

Lemma navPairs_app l1 l2 :
  Spec.navPairs (l1 ++ l2) = Spec.navPairs l1 ++ Spec.navPairs l2.
Proof.
  induction l1 as [|f l1 IH]; [done|]. simpl.
  destruct (bool_decide _); [|done]. by rewrite IH.
Qed.

Lemma navPairs_length classified :
  length (Spec.navPairs classified)
  = length (filter (fun f => type f = "markdown" ∨ type f = "document") classified).
Proof.
  induction classified as [|f rest IH]; [done|]. simpl.
  destruct (decide (type f = "markdown" ∨ type f = "document")) as [H|H].
  - rewrite bool_decide_eq_true_2, filter_cons_True by done. simpl. by rewrite IH.
  - by rewrite bool_decide_eq_false_2, filter_cons_False.
Qed.

(** The regular expression strips the extension of a name with a plain
    extension. *)
Lemma stripExt_stem_ext stem e :
  e ≠ "" → noSlashDot e = true → stripExt (stem +:+ "." +:+ e) = stem.
Proof.
  intros He Hplain.
  assert (∀ t, noSlashDot (t +:+ "." +:+ e) = false) as Hdot.
  { induction t as [|c t IH]; simpl; [done|]. rewrite IH. by rewrite andb_false_r. }
  induction stem as [|c stem IH].
  - change ("" +:+ "." +:+ e) with (String "."%char e).
    cbn [stripExt extMatchesAt].
    by rewrite Hplain, (bool_decide_eq_false_2 (e = "")).
  - change (String c stem +:+ "." +:+ e) with (String c (stem +:+ "." +:+ e)).
    cbn [stripExt extMatchesAt]. rewrite Hdot, !andb_false_r. by rewrite IH.
Qed.

Lemma hyphenateFrom_chars b s :
  Spec.allChars (fun c => Spec.isAlnum c || bool_decide (c = "-"%char))
    (hyphenateFrom b s) = true.
Proof.
  revert b. induction s as [|c s IH]; intros b; simpl; [done|].
  fold (Spec.isAlnum c). destruct (Spec.isAlnum c) eqn:E; simpl.
  - by rewrite E, IH.
  - destruct b; simpl; by rewrite ?IH.
Qed.

Lemma hyphenateFrom_alnum b s :
  Spec.filterChars Spec.isAlnum (hyphenateFrom b s) = Spec.filterChars Spec.isAlnum s.
Proof.
  revert b. induction s as [|c s IH]; intros b; simpl; [done|].
  fold (Spec.isAlnum c). destruct (Spec.isAlnum c) eqn:E; simpl.
  - by rewrite E, IH.
  - destruct b; simpl; by rewrite ?IH.
Qed.

Lemma hyphenateFrom_head_in_run s :
  match hyphenateFrom true s with
  | String c _ => c ≠ "-"%char
  | "" => True
  end.
Proof.
  induction s as [|c s IH]; simpl; [done|].
  fold (Spec.isAlnum c). destruct (Spec.isAlnum c) eqn:E; [|done].
  intros ->. done.
Qed.

Lemma hyphenateFrom_noDouble b s : Spec.noDoubleHyphen (hyphenateFrom b s) = true.
Proof.
  revert b. induction s as [|c s IH]; intros b; [done|].
  cbn [hyphenateFrom]. fold (Spec.isAlnum c).
  destruct (Spec.isAlnum c) eqn:E.
  - cbn [Spec.noDoubleHyphen]. rewrite IH, andb_true_r.
    destruct (hyphenateFrom false s); [done|].
    rewrite bool_decide_eq_false_2; [done|]. by intros ->.
  - destruct b; [apply IH|].
    cbn [Spec.noDoubleHyphen]. rewrite IH, andb_true_r.
    pose proof (hyphenateFrom_head_in_run s) as Hh.
    destruct (hyphenateFrom true s) as [|c' s']; [done|].
    by rewrite (bool_decide_eq_false_2 (c' = "-"%char)), andb_false_r.
Qed.

(** C7. The navigation manifest is the fixed Overview entry, then one
    entry per file whose type is markdown or document, in file order,
    then the fixed Downloads & Appendix entry, and a file of another
    type contributes nothing. The value of a file's entry is its name
    without the extension; its key is that, lowercased, with every run
    of characters outside a-z and 0-9 replaced by one hyphen: the key
    holds only such characters and hyphens, never two hyphens in a row,
    and its letters and digits are those of the lowercased value, in
    order. *)
Theorem navigation_manifest_entries :
  (∀ classified,
     metaTsText classified
     = lines [ "export default {";
               "  index: 'Overview',";
               join nl (map Spec.navLine (Spec.navPairs classified));
               "  appendix: 'Downloads & Appendix',";
               "}";
               "" ])
  ∧ (∀ classified,
       Spec.navManifest classified !! 0%nat = Some ("index", "Overview")
       ∧ last (Spec.navManifest classified) = Some ("appendix", "Downloads & Appendix")
       ∧ length (Spec.navManifest classified)
         = (2 + length (filter (fun f => type f = "markdown" ∨ type f = "document")
                          classified))%nat)
  ∧ (∀ l1 f l2,
       Spec.navPairs (l1 ++ f :: l2)
       = Spec.navPairs l1
         ++ (if bool_decide (type f = "markdown" ∨ type f = "document")
             then [(navSlug f, navName f)] else [])
         ++ Spec.navPairs l2)
  ∧ (∀ f, navName f = stripExt (file f)
          ∧ navSlug f = hyphenate (toLowerCase (navName f))
          ∧ Spec.allChars (fun c => Spec.isAlnum c || bool_decide (c = "-"%char))
              (navSlug f) = true
          ∧ Spec.noDoubleHyphen (navSlug f) = true
          ∧ Spec.filterChars Spec.isAlnum (navSlug f)
            = Spec.filterChars Spec.isAlnum (toLowerCase (navName f)))
  ∧ (∀ stem e, e ≠ "" → noSlashDot e = true →
       stripExt (stem +:+ "." +:+ e) = stem).
Proof.
  split; [|split; [|split; [|split]]].
  - intros classified. unfold metaTsText, navEntries.
    by rewrite navEntries_navPairs.
  - intros classified. unfold Spec.navManifest. split; [done|]. split.
    + by rewrite app_comm_cons, last_snoc.
    + simpl. rewrite length_app, navPairs_length. simpl. lia.
  - intros l1 f l2. rewrite navPairs_app. simpl.
    unfold navSlug, navName. by destruct (bool_decide _).
  - intros f. unfold navSlug, navName, hyphenate.
    split; [done|]. split; [done|].
    split; [apply hyphenateFrom_chars|].
    split; [apply hyphenateFrom_noDouble|apply hyphenateFrom_alnum].
  - apply stripExt_stem_ext.
Qed.

(** C10. The slug of the navigation manifest is not injective: the two
    distinct files Team Notes.md and team_notes.docx, one of type
    markdown and one of type document, get the same key team-notes, so
    the manifest generated for them holds that key twice, and read as an
    object it keeps one value for it, that of the later file. *)
Theorem navigation_slug_not_injective :
  ∃ f1 f2,
    f1 ≠ f2
    ∧ file f1 = "Team Notes.md" ∧ file f2 = "team_notes.docx"
    ∧ f1 = classifyFile (file f1) ∧ f2 = classifyFile (file f2)
    ∧ isPage f1 = true ∧ isPage f2 = true
    ∧ navSlug f1 = navSlug f2
    ∧ navName f1 ≠ navName f2
    ∧ Spec.navManifest [f1; f2]
      = [("index", "Overview"); ("team-notes", "Team Notes");
         ("team-notes", "team_notes"); ("appendix", "Downloads & Appendix")]
    ∧ ¬ NoDup (Spec.navManifest [f1; f2]).*1
    ∧ Spec.objectOf (Spec.navManifest [f1; f2]) !! "team-notes" = Some "team_notes"
    ∧ size (Spec.objectOf (Spec.navManifest [f1; f2])) = 3%nat.
Proof.
  exists (classifyFile "Team Notes.md"), (classifyFile "team_notes.docx").
  split; [discriminate|].
  do 7 (split; [reflexivity|]).
  split; [discriminate|]. split; [reflexivity|]. split; [|split].
  - change (¬ NoDup ["index"; "team-notes"; "team-notes"; "appendix"]).
    rewrite !NoDup_cons. intros (_ & Hnin & _). apply Hnin. apply list_elem_of_here.
  - by vm_compute.
  - by vm_compute.
Qed.

End Navigation.

(** ** The watcher *)

Section WatcherProperties.

Import JS Generator Watcher.

Variable Date_getTime : string → jsnum.

Lemma gt_Num_iff mtimeMs t :
  gt (Num mtimeMs) t = true ↔ ∃ lastSync, t = Num lastSync ∧ (lastSync < mtimeMs)%Q.
Proof.
  destruct t as [|y]; simpl.
  - split; [done|]. by intros (? & ? & _).
  - rewrite negb_true_iff. split.
    + intros H. exists y. split; [done|]. apply Qnot_le_lt. intros Hle.
      apply Qle_bool_iff in Hle. congruence.
    + intros (y' & [= <-] & Hlt). apply not_true_is_false. intros Hle.
      apply Qle_bool_iff in Hle. by apply Qlt_not_le in Hlt.
Qed.

Lemma anyNewer_iff t entries :
  anyNewer t entries = true
  ↔ ∃ file mtimeMs lastSync,
      (file, mtimeMs) ∈ entries ∧ t = Num lastSync ∧ (lastSync < mtimeMs)%Q.
Proof.
  induction entries as [|[file mt] rest IH]; cbn [anyNewer].
  - split; [done|]. intros (? & ? & ? & H & _). by apply elem_of_nil in H.
  - destruct (gt (Num mt) t) eqn:Hgt.
    + split; [|done]. intros _. apply gt_Num_iff in Hgt as (y & -> & Hlt).
      exists file, mt, y. split; [apply list_elem_of_here|done].
    + rewrite IH. split.
      * intros (f & m & y & Hin & Ht & Hlt). exists f, m, y.
        split; [by apply list_elem_of_further|done].
      * intros (f & m & y & Hin & Ht & Hlt).
        apply elem_of_cons in Hin as [[= -> ->]|Hin].
        -- assert (gt (Num mt) t = true) as Hgt' by (apply gt_Num_iff; eauto).
           congruence.
        -- by exists f, m, y.
Qed.

(** The check reads the raw directory and leaves the world alone. *)
Lemma checkForChanges_run p w :
  checkForChanges Date_getTime p w
  = (Ok (anyNewer (Date_getTime (updatedAt p)) (rawEntries w (slug p))), w).
Proof.
  unfold checkForChanges, bind, existsRaw, statAll, ret, rawEntries.
  cbn beta iota zeta.
  destruct (raw (projectAt w (slug p))) eqn:E; cbn [negb]; cbn beta iota;
    rewrite ?E; done.
Qed.

Lemma anyNewer_newerFile w p :
  anyNewer (Date_getTime (updatedAt p)) (rawEntries w (slug p)) = true
  ↔ Spec.newerFile Date_getTime w p.
Proof.
  rewrite anyNewer_iff. unfold Spec.newerFile, rawEntries. split.
  - intros (f & m & y & Hin & Ht & Hlt).
    destruct (raw (projectAt w (slug p))) as [entries|]; simpl in Hin.
    + by exists entries, f, m, y.
    + by apply elem_of_nil in Hin.
  - intros (entries & f & m & y & -> & Hin & Ht & Hlt). by exists f, m, y.
Qed.

(** A run of the generator leaves the entries of every raw directory as
    they were. *)
Lemma main_rawEntries a w dir : rawEntries (main a w).2 dir = rawEntries w dir.
Proof.
  unfold main.
  destruct (negb (truthy (arg_drive a)) || negb (truthy (arg_slug a))); [done|].
  destruct (Cli.DRIVE_ID _) as [driveId|]; [|done].
  destruct (pipeline_run driveId (Cli.SLUG (default "" (arg_slug a)))
              (Cli.VISIBILITY (arg_visibility a)) w)
    as (r & w' & -> & _ & _ & HP & _ & HF & _).
  simpl. unfold rawEntries at 1.
  destruct (decide (dir = Cli.SLUG (default "" (arg_slug a)))) as [->|Hne].
  - by rewrite HP.
  - by rewrite HF.
Qed.

Lemma syncAll_run ps w :
  ∃ w', syncAll Date_getTime ps w = (Ok (eventOf Date_getTime w <$> ps), w')
        ∧ ∀ dir, rawEntries w' dir = rawEntries w dir.
Proof.
  revert w. induction ps as [|p ps IH]; intros w.
  - by exists w.
  - cbn [syncAll]. rewrite (bind_ok _ _ _ _ _ (checkForChanges_run p w)).
    change (eventOf Date_getTime w <$> p :: ps)
      with (eventOf Date_getTime w p :: (eventOf Date_getTime w <$> ps)).
    unfold eventOf at 1.
    destruct (anyNewer _ _) eqn:Hnew.
    + unfold bind at 1, syncProject at 1.
      set (w1 := (main _ w).2).
      assert (∀ dir, rawEntries w1 dir = rawEntries w dir) as H1
        by (intros dir; apply main_rawEntries).
      destruct (IH w1) as (w' & Hrun & H').
      rewrite (bind_ok _ _ _ _ _ Hrun). unfold ret.
      exists w'. split.
      * do 3 f_equal.
        apply list_fmap_ext. intros _ q _. unfold eventOf. by rewrite H1.
      * intros dir. by rewrite H', H1.
    + destruct (IH w) as (w' & Hrun & H').
      rewrite (bind_ok _ _ _ _ _ Hrun). unfold ret.
      by exists w'.
Qed.

Lemma withSlug_id dir meta : withSlug dir meta = meta.
Proof. by destruct meta. Qed.

Lemma elem_of_getProjectsWithDrive w p :
  p ∈ getProjectsWithDrive w
  ↔ ∃ dir d, projects w !! dir = Some d ∧ metadataJson d = Some p
             ∧ driveFolder p ≠ "".
Proof.
  unfold getProjectsWithDrive. rewrite list_elem_of_filter, list_elem_of_omap.
  assert (truthy (Some (driveFolder p)) = true ↔ driveFolder p ≠ "") as ->.
  { simpl. destruct (driveFolder p); split; done. }
  split.
  - intros (Hd & [dir d] & Hin%elem_of_map_to_list & Hp).
    exists dir, d. split; [done|]. split; [|done].
    destruct (metadataJson d) as [meta|]; [|done].
    simpl in Hp. by rewrite withSlug_id in Hp.
  - intros (dir & d & Hl & Hm & Hd). split; [done|].
    exists (dir, d). split; [by apply elem_of_map_to_list|].
    rewrite Hm. simpl. by rewrite withSlug_id.
Qed.

(** C4. A cycle of the watcher completes, and treats the projects that
    declare a drive folder one by one: each gives exactly one event, a
    sync invocation if some file of its raw directory has a modification
    time strictly later than its recorded updatedAt, and no invocation
    otherwise, in particular when it has no raw directory; the files and
    times are those at the start of the cycle, whatever the syncs of the
    cycle wrote. *)
Theorem sync_iff_newer_raw_file (w : world) :
  ∃ events w',
    runSyncCycle Date_getTime w = (Ok events, w')
    ∧ length events = length (getProjectsWithDrive w)
    ∧ (∀ p, p ∈ getProjectsWithDrive w
            ↔ ∃ dir d, projects w !! dir = Some d ∧ metadataJson d = Some p
                       ∧ driveFolder p ≠ "")
    ∧ (∀ i p, getProjectsWithDrive w !! i = Some p →
         (Spec.newerFile Date_getTime w p → events !! i = Some (Invoke p))
         ∧ (¬ Spec.newerFile Date_getTime w p → events !! i = Some (NoChanges p)))
    ∧ (∀ p, Invoke p ∈ events
            ↔ p ∈ getProjectsWithDrive w ∧ Spec.newerFile Date_getTime w p)
    ∧ (∀ p, raw (projectAt w (slug p)) = None → Invoke p ∉ events).
Proof.
  unfold runSyncCycle.
  destruct (syncAll_run (getProjectsWithDrive w) w) as (w' & Hrun & _).
  exists (eventOf Date_getTime w <$> getProjectsWithDrive w), w'.
  split; [done|]. split; [apply length_fmap|].
  split; [apply elem_of_getProjectsWithDrive|].
  assert (∀ p, eventOf Date_getTime w p = Invoke p ↔ Spec.newerFile Date_getTime w p)
    as Hinvoke.
  { intros p. rewrite <- anyNewer_newerFile. unfold eventOf.
    destruct (anyNewer _ _); split; done. }
  assert (∀ p, Invoke p ∈ eventOf Date_getTime w <$> getProjectsWithDrive w
               ↔ p ∈ getProjectsWithDrive w ∧ Spec.newerFile Date_getTime w p)
    as Hmem.
  { intros p. rewrite list_elem_of_fmap. split.
    - intros (q & Hq & Hin). unfold eventOf in Hq.
      destruct (anyNewer _ _) eqn:Hnew; [|done].
      injection Hq as ->. split; [done|]. by apply anyNewer_newerFile.
    - intros [Hin Hnew]. exists p. split; [|done]. symmetry. by apply Hinvoke. }
  split; [|split; [done|]].
  - intros i p Hp. rewrite list_lookup_fmap, Hp. simpl. split.
    + intros Hnew. f_equal. by apply Hinvoke.
    + intros Hnot. f_equal. unfold eventOf.
      destruct (anyNewer _ _) eqn:Hnew; [|done].
      by apply anyNewer_newerFile in Hnew.
  - intros p Hraw [_ (entries & _ & _ & _ & Hsome & _)]%Hmem. congruence.
Qed.

End WatcherProperties.

(** ** The scenarios of §8, evaluated *)

Section Scenarios.

Import JS Generator Watcher.

Example scenario_classification :
  (fun f => (type f, category f)) <$> (classifyFile <$> Fixtures.scenarioFiles)
  = [("pdf", "overview"); ("spreadsheet", "financials"); ("markdown", "appendix")].
Proof. reflexivity. Qed.

Example scenario_appendix_rows :
  appendixRow "acme" <$> (classifyFile <$> Fixtures.scenarioFiles)
  = [ "| Executive-Summary.pdf | pdf | overview | [Download](/projects/acme/assets/Executive-Summary.pdf) |";
      "| Financial-Model.xlsx | spreadsheet | financials | [Download](/projects/acme/assets/Financial-Model.xlsx) |";
      "| random-notes.txt | markdown | appendix | [Download](/projects/acme/assets/random-notes.txt) |" ].
Proof. reflexivity. Qed.

(** Earlier rules win: team before product, legal before pitch; a keyword
    counts wherever it occurs, as [term] does in [terminal]. *)
Example category_priority :
  (fun f => category (classifyFile f))
    <$> ["Team-Roadmap.md"; "Pitch-Deck-Legal.pdf"; "terminal.txt";
         "Competitor-Revenue.csv"; "photo.png"]
  = ["team"; "legal"; "legal"; "financials"; "appendix"].
Proof. reflexivity. Qed.

Example slug_sanitized : Cli.SLUG "My Project!" = "my-project-".
Proof. reflexivity. Qed.

Example display_name :
  join " " (map capitalize (split "-" "x-labs-alpha")) = "X Labs Alpha".
Proof. reflexivity. Qed.

Example extname_edge_cases :
  Path.extname <$> [".md"; "..md"; ".."; "a."; "a.b.c"; "noext"; "x.tar.GZ"]
  = [""; ".md"; ""; "."; ".c"; ""; ".GZ"].
Proof. reflexivity. Qed.

(** Of three projects last updated at 1000 ms, the one with a file
    modified at 1000.5 ms is synced; the one whose file was modified at
    1000 ms exactly and the one without a raw directory are not. *)
Example sync_cycle_on_three_projects :
  ∃ events,
    (runSyncCycle Fixtures.parseKnownDates Fixtures.watchedWorld).1 = Ok events
    ∧ (fun e => match e with
                | Invoke p => (true, slug p)
                | NoChanges p => (false, slug p)
                end) <$> events
      = [(false, "gamma"); (true, "acme"); (false, "beta")].
Proof. eexists. split; by vm_compute. Qed.

End Scenarios.

(** ** The command line of the generator *)

Section ArgvProperties.

Import JS Generator Argv.

Lemma splitFrom_nonempty sep k s : splitFrom sep k s ≠ [].
Proof.
  revert k. induction s as [|c s IH]; intros k; [done|]. cbn [splitFrom].
  destruct k; [|apply IH].
  destruct (startsWith sep (String c s)); [done|].
  specialize (IH 0%nat). by destruct (splitFrom sep 0 s).
Qed.

Lemma join_consHead sep c parts :
  parts ≠ [] → join sep (consHead c parts) = String c (join sep parts).
Proof. destruct parts as [|p [|q ps]]; done. Qed.

Lemma join_cons sep p parts :
  parts ≠ [] → join sep (p :: parts) = p +:+ sep +:+ join sep parts.
Proof. by destruct parts. Qed.

Lemma startsWith_sliceFrom sep s :
  startsWith sep s = true → s = sep +:+ sliceFrom (String.length sep) s.
Proof.
  revert s. induction sep as [|a sep IH]; intros [|b s]; simpl; try done.
  destruct (decide (a = b)) as [->|]; [|done]. intros H.
  change (String b s = String b (sep +:+ sliceFrom (String.length sep) s)).
  f_equal. by apply IH.
Qed.

(** Splitting and joining again on the same separator gives the string
    back. *)
Lemma join_splitFrom sep s k :
  sep ≠ "" → (k ≤ String.length s)%nat →
  join sep (splitFrom sep 0 (sliceFrom k s)) = sliceFrom k s.
Proof.
  intros Hsep. revert k. induction s as [|c s IH]; intros k Hk.
  - by destruct k.
  - destruct k as [|k]; [|simpl in Hk; apply IH; lia].
    cbn [sliceFrom splitFrom].
    destruct (startsWith sep (String c s)) eqn:Hst.
    + pose proof (startsWith_length _ _ Hst) as Hlen. simpl in Hlen.
      rewrite splitFrom_skip by lia.
      rewrite join_cons by apply splitFrom_nonempty.
      rewrite IH by lia.
      rewrite (startsWith_sliceFrom sep (String c s) Hst) at 1.
      destruct sep as [|a sep]; [done|]. simpl. by rewrite Nat.sub_0_r.
    + rewrite join_consHead by apply splitFrom_nonempty.
      f_equal. apply (IH 0%nat). lia.
Qed.

Lemma join_split sep s : sep ≠ "" → join sep (split sep s) = s.
Proof. intros Hsep. apply (join_splitFrom sep s 0 Hsep). lia. Qed.

Lemma split_char_before k v :
  includes k "=" = false → split "=" (k +:+ "=" +:+ v) = k :: split "=" v.
Proof.
  unfold split. induction k as [|c k IH]; [done|].
  cbn [includes]. intros [Hst Hk]%orb_false_iff.
  change (String c k +:+ "=" +:+ v) with (String c (k +:+ "=" +:+ v)).
  cbn [splitFrom].
  assert (startsWith "=" (String c (k +:+ "=" +:+ v)) = false) as ->.
  { simpl in *. by destruct (decide ("="%char = c)). }
  by rewrite IH.
Qed.

Lemma split_char_absent k : includes k "=" = false → split "=" k = [k].
Proof.
  unfold split. induction k as [|c k IH]; [done|].
  cbn [includes]. intros [Hst Hk]%orb_false_iff.
  cbn [splitFrom]. rewrite Hst, IH by done. done.
Qed.




Lemma removeFirst_prefix pat x : removeFirst pat (pat +:+ x) = x.
Proof.
  assert (startsWith pat (pat +:+ x) = true) as Hst.
  { induction pat as [|a pat IH]; [done|]. simpl. by rewrite decide_True. }
  destruct (pat +:+ x) eqn:E; simpl; rewrite Hst; rewrite <- E; apply sliceFrom_app.
Qed.

Lemma parseArg_dashes k v :
  includes k "=" = false → parseArg ("--" +:+ k +:+ "=" +:+ v) = (k, v).
Proof.
  intros Hk. unfold parseArg. rewrite removeFirst_prefix.
  rewrite split_char_before by done. by rewrite join_split.
Qed.

(** X1. An argument [--key=value] whose key holds no equals sign is read as
    the pair of its key and its value, whatever the value holds: equals
    signs and dashes in the value are kept, as a Drive URL needs; an
    argument [--key] without equals sign is read with the empty value. *)
Theorem parseArg_key_value (k v : string) :
  includes k "=" = false →
  parseArg ("--" +:+ k +:+ "=" +:+ v) = (k, v)
  ∧ parseArg ("--" +:+ k) = (k, "").
Proof.
  intros Hk. split; [by apply parseArg_dashes|].
  unfold parseArg. rewrite removeFirst_prefix.
  by rewrite split_char_absent.
Qed.

Lemma parseArg_key_value_witness :
  parseArg ("--" +:+ "drive" +:+ "="
            +:+ "https://drive.google.com/drive/folders/A--B?usp=sharing&x=1")
  = ("drive", "https://drive.google.com/drive/folders/A--B?usp=sharing&x=1").
Proof.
  apply (proj1 (parseArg_key_value "drive"
    "https://drive.google.com/drive/folders/A--B?usp=sharing&x=1" eq_refl)).
Defined.





End ArgvProperties.

(** ** The constants of a run, and a run started by the watcher *)

Section ConstantsProperties.

Import JS Generator Watcher Chars.










Lemma startsWith_before k sep s :
  startsWith k (before sep s) = true → startsWith k s = true.
Proof.
  revert k. induction s as [|c s IH]; intros k; cbn [before].
  - by destruct (startsWith sep "").
  - destruct (startsWith sep (String c s)).
    + destruct k; [done|]. done.
    + destruct k as [|a k]; [done|]. simpl.
      destruct (decide (a = c)); [|done]. apply IH.
Qed.

Lemma includes_before_same sep s : sep ≠ "" → includes (before sep s) sep = false.
Proof.
  intros Hsep. induction s as [|c s IH]; cbn [before].
  - destruct (startsWith sep "") eqn:E; simpl; rewrite ?orb_false_r;
      by destruct sep.
  - destruct (startsWith sep (String c s)) eqn:Hst.
    + simpl. rewrite orb_false_r. by destruct sep.
    + cbn [includes]. rewrite IH, orb_false_r.
      apply not_true_is_false. intros H.
      assert (before sep (String c s) = String c (before sep s)) as E
        by (cbn [before]; by rewrite Hst).
      rewrite <- E in H. apply startsWith_before in H. congruence.
Qed.

Lemma includes_before_other sep q s :
  includes s sep = false → includes (before q s) sep = false.
Proof.
  induction s as [|c s IH]; cbn [before includes].
  - by destruct (startsWith q "").
  - intros [Hst Hs]%orb_false_iff.
    destruct (startsWith q (String c s)) eqn:Hq.
    + simpl. rewrite orb_false_r. destruct sep; done.
    + cbn [includes]. rewrite (IH Hs), orb_false_r.
      apply not_true_is_false. intros H.
      assert (before q (String c s) = String c (before q s)) as E
        by (cbn [before]; by rewrite Hq).
      rewrite <- E in H. apply startsWith_before in H. congruence.
Qed.

Lemma DRIVE_ID_plain drive id :
  Cli.DRIVE_ID drive = Some id →
  includes id "folders/" = false
  ∧ (includes drive "folders/" = true → includes id "?" = false).
Proof.
  rewrite DRIVE_ID_between. unfold Spec.driveIdBetween.
  destruct (includes drive "folders/") eqn:Hinc.
  - destruct (after "folders/" drive) as [rest|]; [|done]. simpl.
    intros [= <-]. split.
    + apply includes_before_other. by apply includes_before_same.
    + intros _. by apply includes_before_same.
  - intros [= <-]. done.
Qed.

Lemma DRIVE_ID_idempotent drive id :
  Cli.DRIVE_ID drive = Some id → Cli.DRIVE_ID id = Some id.
Proof.
  intros [H _]%DRIVE_ID_plain. unfold Cli.DRIVE_ID. by rewrite H.
Qed.

(** X5. The drive id that is extracted holds no [folders/], and no
    question mark when it was cut out of a URL; extracting from an
    extracted id gives the id itself. *)
Theorem DRIVE_ID_is_stable (drive id : string) :
  Cli.DRIVE_ID drive = Some id →
  Cli.DRIVE_ID id = Some id
  ∧ includes id "folders/" = false
  ∧ (includes drive "folders/" = true → includes id "?" = false).
Proof.
  intros H. split; [by apply (DRIVE_ID_idempotent drive)|].
  by apply (DRIVE_ID_plain drive).
Qed.

Lemma DRIVE_ID_is_stable_witness :
  Cli.DRIVE_ID "ABC123" = Some "ABC123"
  ∧ includes "ABC123" "folders/" = false
  ∧ (includes "https://drive.google.com/drive/folders/ABC123?usp=sharing&p=folders/x"
       "folders/" = true → includes "ABC123" "?" = false).
Proof.
  apply (DRIVE_ID_is_stable
           "https://drive.google.com/drive/folders/ABC123?usp=sharing&p=folders/x"
           "ABC123" eq_refl).
Defined.

End ConstantsProperties.

(** ** A generated project under the watcher *)

Section GeneratedProject.

Import JS Generator Watcher.

Variable Date_getTime : string → jsnum.


(** What the watcher finds on disk after a run of the generator. *)
Lemma main_then a w drive slugArg :
  arg_drive a = Some drive → arg_slug a = Some slugArg →
  drive ≠ "" → slugArg ≠ "" →
  ∃ id r w',
    Cli.DRIVE_ID drive = Some id
    ∧ main a w = (Ok r, w')
    ∧ run_metadata r
      = metadataOf id (Cli.SLUG slugArg) (Cli.VISIBILITY (arg_visibility a))
          (map classifyFile (rawNames w (Cli.SLUG slugArg))) (time w) (S (reads w))
    ∧ projects w' !! Cli.SLUG slugArg
      = Some {| raw := Some (rawEntries w (Cli.SLUG slugArg));
                metadataJson := Some (run_metadata r);
                driveManifestJson := Some (run_manifest r) |}
    ∧ rawEntries w' (Cli.SLUG slugArg) = rawEntries w (Cli.SLUG slugArg)
    ∧ time w' = time w ∧ reads w' = (6 + reads w)%nat.
Proof.
  intros Hd Hs Hdne Hsne.
  destruct (main_ok a w drive slugArg Hd Hs Hdne Hsne)
    as (id & r & w' & Hid & Hrun & _ & Hm & HP & _ & _ & HT & HR).
  exists id, r, w'. split; [done|]. split; [done|]. split; [done|].
  split; [|split; [|done]].
  - unfold projectAt in HP.
    destruct (projects w' !! Cli.SLUG slugArg) as [d|]; simpl in HP; [by rewrite HP|].
    discriminate HP.
  - unfold rawEntries at 1. by rewrite HP.
Qed.



(** X7. After a run of the generator the watcher lists the project, with
    the record the run wrote, exactly when the extracted drive id is not
    empty: a [--drive] argument that ends in [folders/], or has a question
    mark right after it, is accepted by the generator and gives a project
    that the watcher never looks at. *)
Theorem generated_project_is_watched (a : args) (w : world) (drive slugArg : string) :
  arg_drive a = Some drive → arg_slug a = Some slugArg →
  drive ≠ "" → slugArg ≠ "" →
  ∃ id r w',
    Cli.DRIVE_ID drive = Some id
    ∧ main a w = (Ok r, w')
    ∧ (run_metadata r ∈ getProjectsWithDrive w' ↔ id ≠ "").
Proof.
  intros Hd Hs Hdne Hsne.
  destruct (main_then a w drive slugArg Hd Hs Hdne Hsne)
    as (id & r & w' & Hid & Hrun & Hm & Hdir & _).
  exists id, r, w'. split; [done|]. split; [done|].
  assert (driveFolder (run_metadata r) = id) as Hdrive by (by rewrite Hm).
  rewrite elem_of_getProjectsWithDrive, Hdrive. split.
  - by intros (_ & _ & _ & _ & Hne).
  - intros Hne. eexists _, _. split; [exact Hdir|]. done.
Qed.

Lemma generated_project_is_watched_witness :
  ∃ id r w',
    Cli.DRIVE_ID "https://drive.google.com/drive/folders/?usp=sharing" = Some id
    ∧ main {| arg_drive := Some "https://drive.google.com/drive/folders/?usp=sharing";
              arg_slug := Some "acme"; arg_visibility := None |}
           Fixtures.emptyWorld = (Ok r, w')
    ∧ (run_metadata r ∈ getProjectsWithDrive w' ↔ id ≠ "").
Proof.
  apply (generated_project_is_watched _ Fixtures.emptyWorld
           "https://drive.google.com/drive/folders/?usp=sharing" "acme");
    done.
Defined.

(** X8. After a run of the generator, the watcher's check of the project
    reports a change exactly when some file of its raw directory has a
    modification time strictly later than the [updatedAt] the run wrote,
    which is the third reading of the clock during the run: files that
    are not newer than the run leave the project alone, and files dated
    after it make every cycle sync it again. The check writes nothing. *)
Theorem check_after_generation (a : args) (w : world) (drive slugArg : string) :
  arg_drive a = Some drive → arg_slug a = Some slugArg →
  drive ≠ "" → slugArg ≠ "" →
  ∃ r w' changed,
    main a w = (Ok r, w')
    ∧ updatedAt (run_metadata r) = time w (2 + reads w)
    ∧ checkForChanges Date_getTime (run_metadata r) w' = (Ok changed, w')
    ∧ (changed = true
       ↔ ∃ file mtimeMs lastSync,
           (file, mtimeMs) ∈ rawEntries w (Cli.SLUG slugArg)
           ∧ Date_getTime (time w (2 + reads w)) = Num lastSync
           ∧ (lastSync < mtimeMs)%Q).
Proof.
  intros Hd Hs Hdne Hsne.
  destruct (main_then a w drive slugArg Hd Hs Hdne Hsne)
    as (id & r & w' & _ & Hrun & Hm & _ & Hraw & _).
  exists r, w'. eexists. split; [done|].
  split; [by rewrite Hm|]. split; [apply checkForChanges_run|].
  rewrite anyNewer_iff. rewrite Hm. cbn [updatedAt slug metadataOf].
  by rewrite Hraw.
Qed.

End GeneratedProject.

Section GeneratedProjectExamples.

Import JS Generator Watcher.

Lemma check_after_generation_witness :
  ∃ r w' changed,
    main Fixtures.acmeArgs MoreFixtures.skewedWorld = (Ok r, w')
    ∧ updatedAt (run_metadata r) = "1970-01-01T00:00:02.000Z"
    ∧ checkForChanges Fixtures.parseKnownDates (run_metadata r) w' = (Ok changed, w')
    ∧ (changed = true
       ↔ ∃ file mtimeMs lastSync,
           (file, mtimeMs) ∈ rawEntries MoreFixtures.skewedWorld "acme"
           ∧ Fixtures.parseKnownDates "1970-01-01T00:00:02.000Z" = Num lastSync
           ∧ (lastSync < mtimeMs)%Q).
Proof.
  apply (check_after_generation Fixtures.parseKnownDates Fixtures.acmeArgs
           MoreFixtures.skewedWorld "ABC123" "acme"); done.
Defined.

End GeneratedProjectExamples.

(** ** What a run leaves alone, and what it replaces *)

Section FrameProperties.

Import JS Generator Watcher Frame.

Lemma keeps_ret dir {A} (a : A) : keeps dir (ret a).
Proof. by intros w. Qed.

Lemma keeps_throw dir {A} e : keeps dir (@throw A e).
Proof. by intros w. Qed.

Lemma keeps_bind dir {A B} (m : M A) (k : A → M B) :
  keeps dir m → (∀ a, keeps dir (k a)) → keeps dir (bind m k).
Proof.
  intros Hm Hk w. unfold bind. specialize (Hm w).
  destruct (m w) as [[a|e] w1]; simpl in *; [|done].
  destruct (Hk a w1) as [H1 H2]. destruct Hm as [H3 H4].
  by rewrite H1, H2.
Qed.

Lemma keeps_now dir : keeps dir now.
Proof. by intros w. Qed.

Lemma keeps_mkdirRaw dir S : dir ≠ S → keeps dir (mkdirRaw S).
Proof. intros Hne w. unfold mkdirRaw. simpl. by rewrite lookup_insert_ne. Qed.

Lemma keeps_mkdirSite dir S : dir ≠ S → keeps dir (mkdirSite S).
Proof. intros Hne w. unfold mkdirSite. simpl. by rewrite lookup_insert_ne. Qed.

Lemma keeps_writeManifest dir S m : dir ≠ S → keeps dir (writeManifest S m).
Proof. intros Hne w. unfold writeManifest. simpl. by rewrite lookup_insert_ne. Qed.

Lemma keeps_writeMetadata dir S m : dir ≠ S → keeps dir (writeMetadata S m).
Proof. intros Hne w. unfold writeMetadata. simpl. by rewrite lookup_insert_ne. Qed.

Lemma keeps_writeIndex dir S t : dir ≠ S → keeps dir (writeIndex S t).
Proof. intros Hne w. unfold writeIndex. simpl. by rewrite lookup_insert_ne. Qed.

Lemma keeps_writeMetaTs dir S t : dir ≠ S → keeps dir (writeMetaTs S t).
Proof. intros Hne w. unfold writeMetaTs. simpl. by rewrite lookup_insert_ne. Qed.

Lemma keeps_writeAppendix dir S t : dir ≠ S → keeps dir (writeAppendix S t).
Proof. intros Hne w. unfold writeAppendix. simpl. by rewrite lookup_insert_ne. Qed.

Lemma keeps_writeChangelog dir S t : dir ≠ S → keeps dir (writeChangelog S t).
Proof. intros Hne w. unfold writeChangelog. simpl. by rewrite lookup_insert_ne. Qed.

Lemma keeps_classifyFiles dir S : keeps dir (classifyFiles S).
Proof. intros w. by rewrite classifyFiles_post. Qed.

Lemma keeps_pipeline dir D S V : dir ≠ S → keeps dir (pipeline D S V).
Proof.
  intros Hne. unfold pipeline, setupDirectories, scanDriveFolder,
    generateMetadata, generateMDXPages, generateChangelog.
  repeat first
    [ apply keeps_classifyFiles
    | apply keeps_bind; [|intros ?]
    | apply keeps_ret | apply keeps_now
    | apply (keeps_mkdirRaw _ _ Hne) | apply (keeps_mkdirSite _ _ Hne)
    | apply (keeps_writeManifest _ _ _ Hne) | apply (keeps_writeMetadata _ _ _ Hne)
    | apply (keeps_writeIndex _ _ _ Hne) | apply (keeps_writeMetaTs _ _ _ Hne)
    | apply (keeps_writeAppendix _ _ _ Hne) | apply (keeps_writeChangelog _ _ _ Hne) ].
Qed.

Lemma keeps_main dir a :
  (∀ s, arg_slug a = Some s → dir ≠ Cli.SLUG s) → keeps dir (main a).
Proof.
  intros Hne. unfold main.
  destruct (arg_slug a) as [s|] eqn:Es.
  - destruct (negb (truthy (arg_drive a)) || negb (truthy (Some s)));
      [apply keeps_throw|].
    destruct (Cli.DRIVE_ID _); [|apply keeps_throw].
    apply keeps_pipeline. by apply Hne.
  - rewrite orb_true_r. apply keeps_throw.
Qed.

(** X9. A run of the generator never changes the listing of a raw
    directory, its own included: it adds, removes and touches no raw
    file; and it leaves every project directory and every site directory
    other than the two named by its slug exactly as they were. *)
Theorem main_frame (a : args) (w : world) :
  (∀ dir, rawEntries (main a w).2 dir = rawEntries w dir)
  ∧ (∀ dir, (∀ s, arg_slug a = Some s → dir ≠ Cli.SLUG s) →
            projects (main a w).2 !! dir = projects w !! dir
            ∧ site (main a w).2 !! dir = site w !! dir).
Proof.
  split; [intros dir; apply main_rawEntries|].
  intros dir Hne. by apply keeps_main.
Qed.

Variable Date_getTime : string → jsnum.




Lemma syncAll_idle ps w :
  (∀ p, p ∈ ps → ¬ Spec.newerFile Date_getTime w p) →
  syncAll Date_getTime ps w = (Ok (NoChanges <$> ps), w).
Proof.
  induction ps as [|p ps IH]; intros Hidle; [done|].
  cbn [syncAll]. rewrite (bind_ok _ _ _ _ _ (checkForChanges_run Date_getTime p w)).
  destruct (anyNewer _ _) eqn:Hnew.
  - exfalso. apply (Hidle p); [apply list_elem_of_here|].
    by apply anyNewer_newerFile.
  - rewrite (bind_ok _ _ _ _ _ (IH (fun q Hq => Hidle q (list_elem_of_further _ _ _ Hq)))).
    done.
Qed.

(** X10. A cycle of the watcher in which no listed project has a raw file
    newer than its [updatedAt] reports no changes for each of them and
    writes nothing: the world after the cycle is the world before it. *)
Theorem idle_cycle_writes_nothing (w : world) :
  (∀ p, p ∈ getProjectsWithDrive w → ¬ Spec.newerFile Date_getTime w p) →
  runSyncCycle Date_getTime w = (Ok (NoChanges <$> getProjectsWithDrive w), w).
Proof. intros Hidle. unfold runSyncCycle. by apply syncAll_idle. Qed.


End FrameProperties.

Section Replacement.

Import JS Generator.

Lemma pipeline_manifest D S V w r w' :
  pipeline D S V w = (Ok r, w') →
  run_manifest r
  = {| folderId := D; scannedAt := time w (reads w); files := [];
       instructions := "Place exported Google Drive files in the /raw directory. Supported: .docx, .pdf, .xlsx, .csv, .pptx, .md, .txt" |}.
Proof.
  unfold pipeline.
  destruct (setupDirectories_post S w) as (w1 & E1 & _ & _ & _ & T1 & R1).
  rewrite (bind_ok _ _ _ _ _ E1).
  destruct (scanDriveFolder_post D S w1) as (w2 & E2 & _).
  rewrite (bind_ok _ _ _ _ _ E2).
  rewrite (bind_ok _ _ _ _ _ (classifyFiles_post S w2)).
  destruct (generateMetadata_post D S V (map classifyFile (rawNames w2 S)) w2)
    as (w3 & E3 & _).
  cbv zeta in E3. rewrite (bind_ok _ _ _ _ _ E3).
  destruct (generateMDXPages_post D S
              (metadataOf D S V (map classifyFile (rawNames w2 S)) (time w2) (reads w2))
              (map classifyFile (rawNames w2 S)) w3) as (w4 & E4 & _).
  rewrite (bind_ok _ _ _ _ _ E4).
  destruct (generateChangelog_post S
              (metadataOf D S V (map classifyFile (rawNames w2 S)) (time w2) (reads w2))
              w4) as (w5 & E5 & _).
  rewrite (bind_ok _ _ _ _ _ E5).
  unfold ret. intros [= <- _]. cbn [run_manifest]. by rewrite T1, R1.
Qed.

(** X12. Everything a run writes is a complete replacement: two runs on
    the same arguments, at the same readings of the clock, over raw
    directories that list the same names, return the same values and
    leave the same four pages, the same [metadata.json] and the same
    [drive-manifest.json], whatever pages, record or manifest were there
    before; a changelog entry, tags, status or version of an earlier
    generation do not survive. The manifest lists no file whatever the
    raw directory holds, and its folder id is the record's drive folder. *)
Theorem run_replaces_everything (a : args) (w1 w2 : world) (drive slugArg : string) :
  arg_drive a = Some drive → arg_slug a = Some slugArg →
  drive ≠ "" → slugArg ≠ "" →
  time w1 = time w2 → reads w1 = reads w2 →
  rawNames w1 (Cli.SLUG slugArg) = rawNames w2 (Cli.SLUG slugArg) →
  ∃ r w1' w2',
    main a w1 = (Ok r, w1') ∧ main a w2 = (Ok r, w2')
    ∧ siteAt w1' (Cli.SLUG slugArg) = siteAt w2' (Cli.SLUG slugArg)
    ∧ metadataJson (projectAt w1' (Cli.SLUG slugArg)) = Some (run_metadata r)
    ∧ metadataJson (projectAt w2' (Cli.SLUG slugArg)) = Some (run_metadata r)
    ∧ driveManifestJson (projectAt w1' (Cli.SLUG slugArg)) = Some (run_manifest r)
    ∧ driveManifestJson (projectAt w2' (Cli.SLUG slugArg)) = Some (run_manifest r)
    ∧ status (run_metadata r) = "active" ∧ tags (run_metadata r) = []
    ∧ version (run_metadata r) = "1.0"
    ∧ files (run_manifest r) = []
    ∧ folderId (run_manifest r) = driveFolder (run_metadata r).
Proof.
  intros Hd Hs Hdne Hsne HT HR Hraw.
  destruct (main_run a w1 drive slugArg Hd Hs Hdne Hsne) as (id & Hid & Hmain1).
  destruct (main_run a w2 drive slugArg Hd Hs Hdne Hsne) as (id' & Hid' & Hmain2).
  rewrite Hid in Hid'. injection Hid' as <-.
  destruct (pipeline_run id (Cli.SLUG slugArg) (Cli.VISIBILITY (arg_visibility a)) w1)
    as (r1 & w1' & Hrun1 & Hc1 & Hm1 & HP1 & HS1 & _).
  destruct (pipeline_run id (Cli.SLUG slugArg) (Cli.VISIBILITY (arg_visibility a)) w2)
    as (r2 & w2' & Hrun2 & Hc2 & Hm2 & HP2 & HS2 & _).
  pose proof (pipeline_manifest _ _ _ _ _ _ Hrun1) as Hf1.
  pose proof (pipeline_manifest _ _ _ _ _ _ Hrun2) as Hf2.
  assert (r1 = r2) as <-.
  { destruct r1, r2. cbn in *. subst. by rewrite Hraw, HT, HR. }
  exists r1, w1', w2'. rewrite Hmain1, Hmain2.
  split; [done|]. split; [done|].
  split; [by rewrite HS1, HS2, Hraw, HT, HR|].
  rewrite HP1, HP2. cbn [metadataJson driveManifestJson].
  split; [by rewrite Hm1|]. split; [by rewrite Hm1, Hraw, HT, HR|].
  split; [done|]. split; [done|].
  rewrite Hm1, Hf1. done.
Qed.

Lemma run_replaces_everything_witness :
  ∃ r w1' w2',
    main Fixtures.acmeArgs MoreFixtures.settledWorld = (Ok r, w1')
    ∧ main Fixtures.acmeArgs MoreFixtures.staleWorld = (Ok r, w2')
    ∧ siteAt w1' (Cli.SLUG "acme") = siteAt w2' (Cli.SLUG "acme")
    ∧ metadataJson (projectAt w1' (Cli.SLUG "acme")) = Some (run_metadata r)
    ∧ metadataJson (projectAt w2' (Cli.SLUG "acme")) = Some (run_metadata r)
    ∧ driveManifestJson (projectAt w1' (Cli.SLUG "acme")) = Some (run_manifest r)
    ∧ driveManifestJson (projectAt w2' (Cli.SLUG "acme")) = Some (run_manifest r)
    ∧ status (run_metadata r) = "active" ∧ tags (run_metadata r) = []
    ∧ version (run_metadata r) = "1.0"
    ∧ files (run_manifest r) = []
    ∧ folderId (run_manifest r) = driveFolder (run_metadata r).
Proof.
  apply (run_replaces_everything Fixtures.acmeArgs MoreFixtures.settledWorld
           MoreFixtures.staleWorld "ABC123" "acme"); done.
Defined.

(** X21. A run creates the raw directory when it is missing and keeps
    its entries when it is there, so after a run it exists; a first run,
    before any file has been placed, completes with an empty
    classification, a file count of zero and no category. *)
Theorem run_creates_raw_directory (a : args) (w : world) (drive slugArg : string) :
  arg_drive a = Some drive → arg_slug a = Some slugArg →
  drive ≠ "" → slugArg ≠ "" →
  ∃ r w',
    main a w = (Ok r, w')
    ∧ raw (projectAt w' (Cli.SLUG slugArg)) = Some (rawEntries w (Cli.SLUG slugArg))
    ∧ (raw (projectAt w (Cli.SLUG slugArg)) = None →
       raw (projectAt w' (Cli.SLUG slugArg)) = Some []
       ∧ run_classified r = []
       ∧ fileCount (run_metadata r) = 0%nat
       ∧ categories (run_metadata r) = []).
Proof.
  intros Hd Hs Hdne Hsne.
  destruct (main_ok a w drive slugArg Hd Hs Hdne Hsne)
    as (id & r & w' & _ & Hrun & Hc & Hm & HP & _).
  exists r, w'. split; [done|]. split; [by rewrite HP|].
  intros Hnone. rewrite HP, Hm, Hc. unfold rawNames, rawEntries. rewrite Hnone.
  done.
Qed.

Lemma run_creates_raw_directory_witness :
  ∃ r w',
    main Fixtures.acmeArgs Fixtures.emptyWorld = (Ok r, w')
    ∧ raw (projectAt w' (Cli.SLUG "acme"))
      = Some (rawEntries Fixtures.emptyWorld (Cli.SLUG "acme"))
    ∧ (raw (projectAt Fixtures.emptyWorld (Cli.SLUG "acme")) = None →
       raw (projectAt w' (Cli.SLUG "acme")) = Some []
       ∧ run_classified r = []
       ∧ fileCount (run_metadata r) = 0%nat
       ∧ categories (run_metadata r) = []).
Proof.
  apply (run_creates_raw_directory Fixtures.acmeArgs Fixtures.emptyWorld
           "ABC123" "acme"); done.
Defined.

End Replacement.

Section FrameExamples.

Import JS Generator Watcher.

Lemma idle_cycle_writes_nothing_witness :
  runSyncCycle Fixtures.parseKnownDates MoreFixtures.idleWorld
  = (Ok (NoChanges <$> getProjectsWithDrive MoreFixtures.idleWorld),
     MoreFixtures.idleWorld).
Proof.
  apply (idle_cycle_writes_nothing Fixtures.parseKnownDates MoreFixtures.idleWorld).
  intros p Hp Hnew.
  apply (anyNewer_newerFile Fixtures.parseKnownDates) in Hnew.
  revert Hnew. apply not_true_iff_false.
  change (getProjectsWithDrive MoreFixtures.idleWorld)
    with [Fixtures.projectRecord "gamma" "1970-01-01T00:00:01.000Z";
          Fixtures.projectRecord "beta" "1970-01-01T00:00:01.000Z"] in Hp.
  apply elem_of_cons in Hp as [->|Hp]; [reflexivity|].
  apply list_elem_of_singleton in Hp as ->. reflexivity.
Defined.

End FrameExamples.

(** ** Names at the edge of [path.extname], and the titles of the pages *)

Section ExtensionEdges.

Import JS Generator Path.

Lemma scanLoop_plain s n len :
  noSlashDot s = true → (n ≤ String.length s)%nat → len ≠ -1 →
  scanLoop s n (inExt len) = inExt len.
Proof.
  intros Hs. induction n as [|n IH]; intros Hn Hlen; [done|].
  simpl. destruct (get_lt s n) as [c Hc]; [lia|]. rewrite Hc.
  destruct (get_noSlashDot s n c Hs Hc) as [H1 H2].
  rewrite scanStep_inExt by done. simpl. apply IH; [lia|done].
Qed.

Lemma extname_no_dot s : noSlashDot s = true → extname s = "".
Proof.
  intros Hs. unfold extname.
  destruct (String.length s) as [|n] eqn:El; [done|].
  simpl. destruct (get_lt s n) as [c Hc]; [lia|]. rewrite Hc.
  destruct (get_noSlashDot s n c Hs Hc) as [H1 H2].
  rewrite scanStep_first by done. simpl.
  rewrite scanLoop_plain by (done || lia). reflexivity.
Qed.

Lemma extname_dotfile e : noSlashDot e = true → extname ("." +:+ e) = "".
Proof.
  intros He. destruct (decide (e = "")) as [->|Hne]; [reflexivity|].
  assert (0 < String.length e)%nat as HE by (destruct e; simpl; [done|lia]).
  unfold extname.
  pose proof (get_ext "" e He) as Hext.
  pose proof (get_dot "" e) as Hdot.
  pose proof (scanLoop_ext "" e He) as Hloop.
  assert (String.length ("" +:+ "." +:+ e) = S (String.length e)) as Hlen
    by reflexivity.
  change ("." +:+ e) with ("" +:+ "." +:+ e).
  set (path := "" +:+ "." +:+ e) in *. clearbody path.
  change (String.length "") with 0%nat in *.
  assert (scanLoop path (String.length path) scan0
          = scanLoop path 1 (inExt (Z.of_nat (String.length path)))) as ->.
  { destruct (String.length path) as [|n] eqn:El; [lia|]. cbn [scanLoop].
    destruct (get_lt path n) as [c Hc]; [lia|]. rewrite Hc.
    destruct (Hext n c) as [H1 H2]; [lia|done|].
    rewrite scanStep_first by done. cbn [stopped inExt].
    replace (Z.of_nat n + 1) with (Z.of_nat (S n)) by lia.
    destruct (decide (n = 1%nat)) as [->|]; [done|].
    apply Hloop; lia. }
  cbn [scanLoop]. rewrite Hdot.
  rewrite scanStep_dot by lia.
  cbn [stopped inStem startDot end_ preDotState].
  change (0 =? 0) with true. by rewrite orb_true_r.
Qed.

Lemma extname_trailing_dot stem :
  Spec.noSlash stem = true →
  extname (stem +:+ ".") = "" ∨ extname (stem +:+ ".") = ".".
Proof.
  intros Hs. unfold extname.
  pose proof (get_dot stem "") as Hdot.
  pose proof (scanLoop_stem stem "" Hs (String.length stem) 0) as Hloop.
  pose proof (sliceFrom_app stem ("." +:+ "")) as Hslice.
  assert (String.length (stem +:+ "." +:+ "") = S (String.length stem)) as Hlen
    by (rewrite len_eq; simpl; lia).
  change (stem +:+ ".") with (stem +:+ "." +:+ "").
  set (path := stem +:+ "." +:+ "") in *. clearbody path.
  set (L := String.length stem) in *. clearbody L.
  rewrite Hlen in *. cbn [scanLoop]. rewrite Hdot.
  assert (scanStep (Z.of_nat L) "." scan0 = inStem (Z.of_nat L) (Z.of_nat (S L)) 0)
    as ->.
  { unfold scanStep, scan0, inStem. simpl. do 2 f_equal. lia. }
  cbn [stopped inStem].
  destruct Hloop as (pre & _ & ->); [lia|].
  cbn [startDot end_ preDotState startPart inStem].
  destruct (_ || _); [by left|]. right.
  unfold slice. rewrite Hlen.
  destruct (Z.of_nat L <? 0) eqn:E1; [apply Z.ltb_lt in E1; lia|].
  destruct (Z.of_nat (S L) <? 0) eqn:E2; [apply Z.ltb_lt in E2; lia|].
  rewrite Z.min_id, (Z.min_l (Z.of_nat L)) by lia.
  rewrite Nat2Z.id, Hslice.
  replace (Z.to_nat _) with 1%nat by lia. reflexivity.
Qed.

(** A slash-free name either has no dot, or splits at its last dot. *)
Lemma last_dot s :
  Spec.noSlash s = true →
  noSlashDot s = true
  ∨ ∃ stem e, s = stem +:+ "." +:+ e
              ∧ Spec.noSlash stem = true ∧ noSlashDot e = true.
Proof.
  induction s as [|c s IH]; [by left|]. simpl.
  intros [Hc Hs]%andb_true_iff.
  destruct (IH Hs) as [Hplain|(stem & e & -> & Hstem & He)].
  - destruct (decide (c = "."%char)) as [->|Hdot].
    + right. exists "", s. done.
    + left. rewrite Hc, Hplain. by rewrite (bool_decide_eq_false_2 _ Hdot).
  - right. exists (String c stem), e. split; [done|]. simpl. by rewrite Hc, Hstem.
Qed.

Lemma isPage_type f : isPage f = true → type f ≠ "unknown".
Proof.
  unfold isPage. intros H Hu. rewrite Hu in H. done.
Qed.

Lemma no_extension_cases :
  (∀ s, noSlashDot s = true → type (classifyFile s) = "unknown")
  ∧ (∀ e, noSlashDot e = true → type (classifyFile ("." +:+ e)) = "unknown")
  ∧ (∀ stem, Spec.noSlash stem = true →
             type (classifyFile (stem +:+ ".")) = "unknown").
Proof.
  split; [|split].
  - intros s Hs. cbn [type classifyFile]. by rewrite extname_no_dot.
  - intros e He. cbn [type classifyFile]. by rewrite extname_dotfile.
  - intros stem Hs. cbn [type classifyFile].
    by destruct (extname_trailing_dot stem Hs) as [-> | ->].
Qed.

(** X13. A name without dot, a name whose only dot is its first character
    (as [.md] or [.gitignore]) and a name that ends with a dot have no
    extension that the table knows: their type is unknown, and they get
    no entry in the navigation manifest. *)
Theorem no_extension_is_unknown :
  (∀ s, noSlashDot s = true →
        type (classifyFile s) = "unknown"
        ∧ Spec.navPairs [classifyFile s] = [])
  ∧ (∀ e, noSlashDot e = true →
          type (classifyFile ("." +:+ e)) = "unknown"
          ∧ Spec.navPairs [classifyFile ("." +:+ e)] = [])
  ∧ (∀ stem, Spec.noSlash stem = true →
             type (classifyFile (stem +:+ ".")) = "unknown"
             ∧ Spec.navPairs [classifyFile (stem +:+ ".")] = []).
Proof.
  destruct no_extension_cases as (Hplain & Hdotfile & Htrailing).
  split; [|split].
  - intros s Hs. split; [by apply Hplain|].
    cbn [Spec.navPairs]. by rewrite (Hplain s Hs).
  - intros e He. split; [by apply Hdotfile|].
    cbn [Spec.navPairs]. by rewrite (Hdotfile e He).
  - intros stem Hs. split; [by apply Htrailing|].
    cbn [Spec.navPairs]. by rewrite (Htrailing stem Hs).
Qed.

Lemma hyphenate_nonempty s : s ≠ "" → hyphenate s ≠ "".
Proof.
  destruct s as [|c s]; [done|]. intros _. unfold hyphenate. simpl.
  by destruct (isLower c || isDigit c).
Qed.

(** X14. Every directory entry that gets an entry in the navigation
    manifest is its title, a dot and its extension: the title is not empty
    and is the name up to its last dot, the key is not empty, and the
    recorded extension is the rest in lower case. *)
Theorem page_title_and_extension (file : string) :
  Spec.noSlash file = true → isPage (classifyFile file) = true →
  ∃ e,
    file = navName (classifyFile file) +:+ "." +:+ e
    ∧ e ≠ "" ∧ noSlashDot e = true
    ∧ navName (classifyFile file) ≠ ""
    ∧ navSlug (classifyFile file) ≠ ""
    ∧ Path.extname file = "." +:+ e
    ∧ ext (classifyFile file) = "." +:+ toLowerCase e.
Proof.
  intros Hfile Hpage. apply isPage_type in Hpage.
  destruct no_extension_cases as (Hplain & Hdotfile & Htrailing).
  destruct (last_dot file Hfile) as [Hp|(stem & e & -> & Hstem & He)].
  { by specialize (Hplain file Hp). }
  destruct stem as [|c stem]; [by specialize (Hdotfile e He)|].
  destruct e as [|c' e]; [by specialize (Htrailing (String c stem) Hstem)|].
  exists (String c' e). unfold navName, navSlug. cbn [file classifyFile ext].
  rewrite stripExt_stem_ext, extname_stem_ext_aux by done.
  split; [done|]. split; [done|]. split; [done|]. split; [done|].
  split; [|done]. apply hyphenate_nonempty. done.
Qed.

Lemma page_title_and_extension_witness :
  ∃ e,
    "Q3.Board Notes.DOCX" = navName (classifyFile "Q3.Board Notes.DOCX") +:+ "." +:+ e
    ∧ e ≠ "" ∧ noSlashDot e = true
    ∧ navName (classifyFile "Q3.Board Notes.DOCX") ≠ ""
    ∧ navSlug (classifyFile "Q3.Board Notes.DOCX") ≠ ""
    ∧ Path.extname "Q3.Board Notes.DOCX" = "." +:+ e
    ∧ ext (classifyFile "Q3.Board Notes.DOCX") = "." +:+ toLowerCase e.
Proof. apply (page_title_and_extension "Q3.Board Notes.DOCX"); reflexivity. Defined.

End ExtensionEdges.

(** ** Case, display names and categories *)

Section CaseAndNames.

Import JS Generator Path Chars.



























Lemma category_in_allCategories f : category (classifyFile f) ∈ allCategories.
Proof.
  cbn [category classifyFile]. unfold categoryOfName, allCategories.
  repeat (destruct (_ || _);
          [repeat first [apply list_elem_of_here|apply list_elem_of_further]|]).
  repeat first [apply list_elem_of_here|apply list_elem_of_further].
Qed.

Lemma NoDup_length_le (l k : list string) :
  NoDup l → (∀ x, x ∈ l → x ∈ k) → (length l ≤ length k)%nat.
Proof. intros Hl Hsub. apply submseteq_length. by apply NoDup_submseteq. Qed.

(** X17. The categories of a generated record are among the eight
    category names, so there are at most eight of them, and never more
    than there are files; there is none exactly when the raw directory
    lists nothing. *)
Theorem categories_bounded (D S V : string) (names : list string) (w : world) :
  ∃ m w',
    generateMetadata D S V (map classifyFile names) w = (Ok m, w')
    ∧ (∀ c, c ∈ categories m → c ∈ allCategories)
    ∧ (length (categories m) ≤ 8)%nat
    ∧ (length (categories m) ≤ fileCount m)%nat
    ∧ (categories m = [] ↔ names = []).
Proof.
  destruct (generateMetadata_post D S V (map classifyFile names) w) as (w' & Hrun & _).
  eexists _, w'. split; [exact Hrun|].
  cbn [categories fileCount metadataOf]. rewrite newSet_firstSeen.
  assert (∀ c, c ∈ Spec.firstSeen (map category (map classifyFile names)) →
               c ∈ allCategories) as Hin.
  { intros c. rewrite elem_of_firstSeen.
    change (map category (map classifyFile names))
      with (category <$> (classifyFile <$> names)).
    intros (f & -> & (n & -> & _)%list_elem_of_fmap)%list_elem_of_fmap.
    apply category_in_allCategories. }
  split; [done|]. split; [|split].
  - apply (NoDup_length_le _ allCategories); [apply NoDup_firstSeen|done].
  - rewrite <- (length_map category).
    apply NoDup_length_le; [apply NoDup_firstSeen|].
    intros c. by rewrite elem_of_firstSeen.
  - destruct names as [|n names]; [done|]. split; [|done]. simpl. done.
Qed.

End CaseAndNames.

(** ** The polling interval, unparsable dates, and the fixed keys of the manifest *)

Section IntervalAndKeys.

Import JS Generator Watcher Argv.

Lemma findInterval_first earlier a later :
  (∀ x, x ∈ earlier → startsWith "--interval=" x = false) →
  startsWith "--interval=" a = true →
  findInterval (earlier ++ a :: later) = Some a.
Proof.
  intros Hearlier Ha. unfold findInterval.
  induction earlier as [|x earlier IH].
  - cbn [app]. by rewrite filter_cons_True.
  - rewrite <- app_comm_cons, filter_cons_False.
    + apply IH. intros y Hy. apply Hearlier. by apply list_elem_of_further.
    + rewrite (Hearlier x) by apply list_elem_of_here. done.
Qed.

Lemma findInterval_none argv :
  (∀ x, x ∈ argv → startsWith "--interval=" x = false) → findInterval argv = None.
Proof.
  intros Hnone. unfold findInterval.
  induction argv as [|x argv IH]; [done|].
  rewrite filter_cons_False.
  - apply IH. intros y Hy. apply Hnone. by apply list_elem_of_further.
  - rewrite (Hnone x) by apply list_elem_of_here. done.
Qed.

(** X18. The watcher takes its interval from the first argument that
    starts with [--interval=]: the text handed to [parseInt] is what
    stands between that equals sign and the next one, or the end; with no
    such argument, or with nothing after the equals sign, it is the
    default 300. *)
Theorem interval_text_or_default :
  (∀ argv, (∀ x, x ∈ argv → startsWith "--interval=" x = false) →
           intervalText argv = "300")
  ∧ (∀ earlier v later,
       (∀ x, x ∈ earlier → startsWith "--interval=" x = false) →
       intervalText (earlier ++ ("--interval" +:+ "=" +:+ v) :: later)
       = if decide (before "=" v = "") then "300" else before "=" v).
Proof.
  split.
  - intros argv Hnone. unfold intervalText. by rewrite findInterval_none.
  - intros earlier v later Hearlier. unfold intervalText.
    rewrite findInterval_first; [|done|done].
    rewrite split_char_before by done.
    change ((?x :: ?l) !! 1%nat) with (l !! 0%nat).
    unfold split.
    assert (splitFrom "=" 0 v !! 0%nat = Some (before "=" v)) as ->
      by (rewrite <- head_lookup; apply splitFrom_head).
    destruct (decide (before "=" v = "")) as [->|Hne]; [done|].
    by destruct (before "=" v).
Qed.

Lemma interval_text_or_default_witness :
  intervalText ["node"; "drive-sync.mjs"; "--verbose"]  = "300"
  ∧ intervalText (["node"; "drive-sync.mjs"]
                  ++ ("--interval" +:+ "=" +:+ "60=5") :: ["--interval=900"])
    = "60".
Proof.
  destruct interval_text_or_default as [Hnone Hfirst]. split.
  - apply Hnone. intros x Hx.
    repeat (apply elem_of_cons in Hx as [->|Hx]; [reflexivity|]).
    by apply elem_of_nil in Hx.
  - rewrite Hfirst; [reflexivity|]. intros x Hx.
    repeat (apply elem_of_cons in Hx as [->|Hx]; [reflexivity|]).
    by apply elem_of_nil in Hx.
Defined.

Lemma anyNewer_NaN entries : anyNewer NaN entries = false.
Proof. induction entries as [|[f mt] entries IH]; [done|]. simpl. apply IH. Qed.

(** X19. A project whose [updatedAt] does not parse as a date is never
    synced, however new its raw files are: the check compares with NaN
    and reports no change, in every cycle. *)
Theorem unparsable_updatedAt_never_syncs
    (Date_getTime : string → jsnum) (w : world) (p : metadata) :
  Date_getTime (updatedAt p) = NaN →
  checkForChanges Date_getTime p w = (Ok false, w)
  ∧ eventOf Date_getTime w p = NoChanges p
  ∧ ¬ Spec.newerFile Date_getTime w p.
Proof.
  intros HNaN. rewrite checkForChanges_run. unfold eventOf.
  rewrite HNaN, anyNewer_NaN. split; [done|]. split; [done|].
  intros (_ & _ & _ & t & _ & _ & Ht & _). congruence.
Qed.

Lemma unparsable_updatedAt_never_syncs_witness :
  checkForChanges Fixtures.parseKnownDates
    (Fixtures.projectRecord "acme" "yesterday") MoreFixtures.skewedWorld
  = (Ok false, MoreFixtures.skewedWorld)
  ∧ eventOf Fixtures.parseKnownDates MoreFixtures.skewedWorld
      (Fixtures.projectRecord "acme" "yesterday")
    = NoChanges (Fixtures.projectRecord "acme" "yesterday")
  ∧ ¬ Spec.newerFile Fixtures.parseKnownDates MoreFixtures.skewedWorld
        (Fixtures.projectRecord "acme" "yesterday").
Proof.
  apply (unparsable_updatedAt_never_syncs Fixtures.parseKnownDates
           MoreFixtures.skewedWorld (Fixtures.projectRecord "acme" "yesterday")).
  reflexivity.
Defined.




End IntervalAndKeys.
